(** * Catalog backend: products, categories and image upload

    A shallow embedding of the two deployments of the catalog backend:

    - [FlatFile]: [src/server.js], which keeps two in-memory arrays and
      rewrites [data.json] after every mutation;
    - [Relational]: [src/unnamed/part_000], which issues one SQL statement per
      request against tables holding one [jsonb] document per row.

    Both files share [generateId] and the [/upload] route.

    JavaScript objects are finite maps from field names to JSON values, so
    that two records are equal exactly when they have the same fields with
    the same values.  Every handler is a function from the state of its store
    and the request to the new state and the outcome of the request; the
    clock, the random generator and the failure of the one persistence call a
    handler makes are inputs. *)

From Stdlib Require Import ZArith QArith Qround Qabs DecimalString DecimalPos DecimalZ.
From stdpp Require Import gmap strings list fin_maps.

Set Warnings "-register-all".
Local Open Scope string_scope.

(** ** JSON values and the JavaScript primitives the handlers use *)

Module Js.

(** A parsed JSON document.  Numbers are carried as rationals: no handler
    computes with the numbers of a payload, they are only passed along. *)
Inductive json : Type :=
  | JNull
  | JBool (b : bool)
  | JNum (q : Q)
  | JStr (s : string)
  | JArr (items : list json)
  | JObj (fields : gmap string json).

(** A record: the fields of a JavaScript object. *)
Abbreviation record := (gmap string json).

(** [{ message: msg }] *)
Definition message (msg : string) : json :=
  JObj {[ "message" := JStr msg ]}.

(** [{ ...a, ...b }]: the fields of [a], then those of [b] written over
    them. *)
Definition spread (a b : record) : record := b ∪ a.

(** [obj[field] === id] for a string [id]: strict equality holds only when
    the field is present and is a string with the same characters. *)
Definition field_is (field id : string) (obj : record) : bool :=
  match obj !! field with
  | Some (JStr s) => String.eqb s id
  | _ => false
  end.

(** [Array.prototype.findIndex]: the index of the first element that
    satisfies [p]; [None] stands for the result [-1]. *)
Fixpoint findIndex {A : Type} (p : A -> bool) (l : list A) : option nat :=
  match l with
  | [] => None
  | x :: rest => if p x then Some 0%nat else S <$> findIndex p rest
  end.

(** [l.splice(i, 1)]: the element at index [i] is removed, the rest keeps
    its order. *)
Definition splice {A : Type} (i : nat) (l : list A) : list A :=
  take i l ++ drop (S i) l.

(** The clock and the random generator as the handlers read them. *)
Record world : Type := World {
  Date_now : Z;      (* Date.now(): milliseconds since the epoch *)
  Math_random : Q    (* Math.random(): a double in [0, 1), as the rational
                        number it denotes *)
}.

(** The contract of [Math.random]. *)
Definition random_in_range (w : world) : Prop :=
  (0 <= Math_random w)%Q /\ (Math_random w < 1)%Q.

(** Conversion of an integral number to a string inside a template literal:
    its decimal digits, after a minus sign when it is negative (the form
    JavaScript prints below 10^21, which covers every time value and every
    draw). *)
Definition Number_toString (z : Z) : string :=
  NilZero.string_of_int (Z.to_int z).

Definition Math_floor (q : Q) : Z := Qfloor q.

(** The arithmetic of JavaScript numbers (IEEE 754 binary64): a result is the
    exact result rounded to the nearest number with a 53-bit significand,
    ties going to the even significand. *)

(** The integer nearest to [x], the even one of the two when [x] is halfway. *)
Definition round_half_even (x : Q) : Z :=
  let n := Qnum x in
  let d := Zpos (Qden x) in
  let f := (n / d)%Z in
  match (2 * (n mod d) ?= d)%Z with
  | Lt => f
  | Gt => (f + 1)%Z
  | Eq => if Z.even f then f else (f + 1)%Z
  end.

(** [2 ^ e] for an integer [e] of either sign. *)
Definition pow2 (e : Z) : Q :=
  match e with
  | Z0 => 1
  | Zpos p => inject_Z (2 ^ Zpos p)
  | Zneg p => 1 # (2 ^ p)%positive
  end.

(** For [q > 0], the [k] with [2 ^ k <= q < 2 ^ (k + 1)]. *)
Definition Qlog2 (q : Q) : Z :=
  let k := (Z.log2 (Qnum q) - Z.log2 (Zpos (Qden q)))%Z in
  if Qle_bool (pow2 k) q then k else (k - 1)%Z.

(** Rounding of a positive number: the significand has 53 bits, the exponent
    is not below that of the subnormal numbers.  Overflow to infinity (from
    [2 ^ 1024] on) is not represented: the numbers rounded here are products
    below 10000. *)
Definition binary64_round_pos (q : Q) : Q :=
  let e := Z.max (Qlog2 q - 52) (-1074) in
  inject_Z (round_half_even (q / pow2 e)) * pow2 e.

Definition binary64_round (q : Q) : Q :=
  match Qnum q with
  | Z0 => 0
  | Zpos _ => binary64_round_pos q
  | Zneg _ => - binary64_round_pos (- q)
  end.

(** [x * y] on two doubles. *)
Definition binary64_mul (x y : Q) : Q := binary64_round (x * y).

(** The rationals that are doubles: a significand below [2 ^ 53] in absolute
    value and an exponent in the range of the format. *)
Definition binary64 (q : Q) : Prop :=
  exists m e : Z,
    (Z.abs m < 2 ^ 53)%Z /\ (-1074 <= e <= 971)%Z /\
    (q == inject_Z m * pow2 e)%Q.

(** [Math.floor(Math.random() * 10000)] *)
Definition random_draw (w : world) : Z :=
  Math_floor (binary64_mul (Math_random w) 10000).

(** [generateId]: [`${prefix}${Date.now()}${Math.floor(Math.random() * 10000)}`] *)
Definition generateId (w : world) (prefix : string) : string :=
  prefix +:+ Number_toString (Date_now w) +:+ Number_toString (random_draw w).

(** What a request ends in: a response with a status and a body, or an
    exception that leaves the handler. *)
Inductive body : Type :=
  | NoBody
  | JsonBody (j : json).

Inductive outcome : Type :=
  | Responded (status : Z) (b : body)
  | Threw (err : string).

(** The two collections; the routes of one are the routes of the other
    with the names exchanged. *)
Inductive collection : Type := Products | Categories.

Definition id_field (c : collection) : string :=
  match c with Products => "ProductID" | Categories => "CategoryID" end.

Definition id_prefix (c : collection) : string :=
  match c with Products => "prod_" | Categories => "cat_" end.

Definition not_found (c : collection) : string :=
  match c with
  | Products => "Product not found"
  | Categories => "Category not found"
  end.

(** Decimal digits, for the shape of the generated identifiers. *)
Definition is_digit (a : Ascii.ascii) : bool :=
  let n := Ascii.nat_of_ascii a in (48 <=? n)%nat && (n <=? 57)%nat.

Fixpoint all_digits (s : string) : bool :=
  match s with
  | EmptyString => true
  | String a rest => is_digit a && all_digits rest
  end.

(** [prefix] followed by one or more decimal digits. *)
Definition prefixed_digits (prefix s : string) : Prop :=
  exists ds, s = prefix +:+ ds /\ ds <> "" /\ all_digits ds = true.

(** The number a string of decimal digits denotes, read from the left. *)
Fixpoint digits_value_from (acc : Z) (s : string) : Z :=
  match s with
  | EmptyString => acc
  | String a rest =>
      digits_value_from (10 * acc + (Z.of_nat (Ascii.nat_of_ascii a) - 48)) rest
  end.

Definition digits_value (s : string) : Z := digits_value_from 0 s.

(** [s] is the decimal numeral of the natural number [n]: one or more digits
    that denote [n], without a leading zero unless [s] is ["0"]. *)
Definition numeral (n : Z) (s : string) : Prop :=
  s <> "" /\ all_digits s = true /\ digits_value s = n /\
  (s = "0" \/ exists a rest, s = String a rest /\ a <> Ascii.ascii_of_nat 48).

(** [s] is the decimal numeral of the integer [z], with a minus sign in front
    when [z] is negative. *)
Definition decimal_of (z : Z) (s : string) : Prop :=
  ((0 <= z)%Z -> numeral z s) /\
  ((z < 0)%Z -> exists ds, s = "-" +:+ ds /\ numeral (- z) ds).

End Js.

Import Js.

(** ** The flat-file deployment ([src/server.js]) *)

Module FlatFile.

(** The content of [data.json]: [{ productsData, categoriesData }]. *)
Record snapshot : Type := Snapshot {
  snap_products : list record;
  snap_categories : list record
}.

(** [readData]: the parsed file when it exists, two empty arrays otherwise. *)
Definition readData (file : option snapshot) : snapshot :=
  match file with
  | Some data => data
  | None => Snapshot [] []
  end.

(** The two module-level arrays, the contents written to [data.json] by the
    writes that completed, newest first, and whether the last write threw.
    After a write that threw, the content of the file is not known: the file
    is opened for truncation before anything is written, so it may hold its
    old content, nothing, or a part of the new content. *)
Record state : Type := State {
  productsData : list record;
  categoriesData : list record;
  dataFile : list snapshot;
  tornWrite : bool
}.

(** [let { productsData, categoriesData } = readData();] *)
Definition load (file : option snapshot) : state :=
  let data := readData file in
  State (snap_products data) (snap_categories data) [] false.

(** [writeData]: [fs.writeFileSync] either replaces the content of the file
    by [data], or throws [err] without completing the write, which leaves the
    file in the unknown condition [tornWrite] stands for.  The result is the
    error thrown, if any, the completed writes and that condition. *)
Definition writeData (fault : option string) (data : snapshot)
    (file : list snapshot) : option string * list snapshot * bool :=
  match fault with
  | Some err => (Some err, file, true)
  | None => (None, data :: file, false)
  end.

Definition rows (c : collection) (st : state) : list record :=
  match c with
  | Products => productsData st
  | Categories => categoriesData st
  end.

Definition set_rows (c : collection) (l : list record) (st : state) : state :=
  match c with
  | Products => State l (categoriesData st) (dataFile st) (tornWrite st)
  | Categories => State (productsData st) l (dataFile st) (tornWrite st)
  end.

(** [writeData({ productsData, categoriesData })] followed by [respond]; an
    exception of the write leaves the handler, with the arrays as they are. *)
Definition save_then (fault : option string) (st : state) (respond : outcome)
    : state * outcome :=
  match writeData fault (Snapshot (productsData st) (categoriesData st))
          (dataFile st) with
  | (Some err, file, torn) =>
      (State (productsData st) (categoriesData st) file torn, Threw err)
  | (None, file, torn) =>
      (State (productsData st) (categoriesData st) file torn, respond)
  end.

(** [GET /products], [GET /categories] *)
Definition get_route (c : collection) (st : state) : state * outcome :=
  (st, Responded 200 (JsonBody (JArr (JObj <$> rows c st)))).

(** [POST /products], [POST /categories] *)
Definition post_route (w : world) (fault : option string) (c : collection)
    (st : state) (req_body : record) : state * outcome :=
  let newRecord := <[id_field c := JStr (generateId w (id_prefix c))]> req_body in
  let st1 := set_rows c (rows c st ++ [newRecord]) st in
  save_then fault st1 (Responded 201 (JsonBody (JObj newRecord))).

(** [PUT /products/:id], [PUT /categories/:id] *)
Definition put_route (fault : option string) (c : collection) (st : state)
    (id : string) (req_body : record) : state * outcome :=
  match findIndex (field_is (id_field c) id) (rows c st) with
  | Some index =>
      let merged := spread (default ∅ (rows c st !! index)) req_body in
      let st1 := set_rows c (<[index := merged]> (rows c st)) st in
      save_then fault st1 (Responded 200 (JsonBody (JObj merged)))
  | None => (st, Responded 404 (JsonBody (message (not_found c))))
  end.

(** [DELETE /products/:id], [DELETE /categories/:id] *)
Definition delete_route (fault : option string) (c : collection) (st : state)
    (id : string) : state * outcome :=
  match findIndex (field_is (id_field c) id) (rows c st) with
  | Some index =>
      let st1 := set_rows c (splice index (rows c st)) st in
      save_then fault st1 (Responded 204 NoBody)
  | None => (st, Responded 404 (JsonBody (message (not_found c))))
  end.

End FlatFile.

(** ** The relational deployment ([src/unnamed/part_000]) *)

Module Relational.

(** The tables [products] and [categories]: one [jsonb] document per row, in
    the order a sequential scan visits them. *)
Record database : Type := Database {
  products : list json;
  categories : list json
}.

Definition table (c : collection) (db : database) : list json :=
  match c with
  | Products => products db
  | Categories => categories db
  end.

Definition set_table (c : collection) (t : list json) (db : database)
    : database :=
  match c with
  | Products => Database t (categories db)
  | Categories => Database (products db) t
  end.

(** The statements the routes send, with their parameters. *)
Inductive statement : Type :=
  | SelectData (c : collection)
      (* SELECT data FROM c *)
  | InsertData (c : collection) (doc : json)
      (* INSERT INTO c (data) VALUES ($1) *)
  | UpdateSetId (c : collection) (new : json) (id : string)
      (* UPDATE c SET data = jsonb_set(data, '{Id}', $1)
         WHERE data->>'Id' = $2 RETURNING data *)
  | DeleteWhereId (c : collection) (id : string).
      (* DELETE FROM c WHERE data->>'Id' = $1 RETURNING data *)

Definition fetch_error (c : collection) : string :=
  match c with
  | Products => "Error fetching products"
  | Categories => "Error fetching categories"
  end.

Definition create_error (c : collection) : string :=
  match c with
  | Products => "Error creating product"
  | Categories => "Error creating category"
  end.

Definition update_error (c : collection) : string :=
  match c with
  | Products => "Error updating product"
  | Categories => "Error updating category"
  end.

Definition delete_error (c : collection) : string :=
  match c with
  | Products => "Error deleting product"
  | Categories => "Error deleting category"
  end.

Section Sql.

(** The text the database prints for a [jsonb] number, array or object; the
    routes never build such a text themselves. *)
Variable jsonb_out : json -> string.

(** The text of a [jsonb] value as [->>] returns it: SQL [NULL] ([None]) for
    a JSON null, the characters of a string, the printed value otherwise. *)
Definition jsonb_text (v : json) : option string :=
  match v with
  | JNull => None
  | JStr s => Some s
  | JBool true => Some "true"
  | JBool false => Some "false"
  | other => Some (jsonb_out other)
  end.

(** [doc ->> 'key']: [NULL] when [doc] is not an object or has no such key. *)
Definition field_text (doc : json) (key : string) : option string :=
  match doc with
  | JObj fields => fields !! key ≫= jsonb_text
  | _ => None
  end.

(** [WHERE data->>'key' = id]: a [NULL] text selects nothing. *)
Definition where_id (key id : string) (doc : json) : bool :=
  match field_text doc key with
  | Some text => String.eqb text id
  | None => false
  end.

(** [jsonb_set(doc, '{key}', new)]: the top-level field [key] of the object
    [doc] is replaced by [new], or added.  The statement applies it to rows
    selected by [where_id] only, which are objects. *)
Definition jsonb_set (doc : json) (key : string) (new : json) : json :=
  match doc with
  | JObj fields => JObj (<[key := new]> fields)
  | other => other
  end.

(** One statement on the database: the new database and the rows returned.
    An update writes the new version of a row as a new row, which a later
    scan meets after the rows that were not updated; the statements have no
    [ORDER BY], and nothing else is assumed of the order of a scan. *)
Definition execute (s : statement) (db : database) : database * list json :=
  match s with
  | SelectData c => (db, table c db)
  | InsertData c doc => (set_table c (table c db ++ [doc]) db, [])
  | UpdateSetId c new id =>
      let hit := where_id (id_field c) id in
      let set doc := jsonb_set doc (id_field c) new in
      (set_table c
         (List.filter (λ doc, negb (hit doc)) (table c db) ++
          (set <$> List.filter hit (table c db))) db,
       set <$> List.filter hit (table c db))
  | DeleteWhereId c id =>
      let hit := where_id (id_field c) id in
      (set_table c (List.filter (λ doc, negb (hit doc)) (table c db)) db,
       List.filter hit (table c db))
  end.

(** [await pool.query(...)]: the promise is rejected with [err], or the
    statement runs and its rows are the result.  A rejected statement is
    taken to have had no effect on the tables. *)
Definition pool_query (fault : option string) (s : statement) (db : database)
    : database * (string + list json) :=
  match fault with
  | Some err => (db, inl err)
  | None => let '(db', result_rows) := execute s db in (db', inr result_rows)
  end.

(** A handler leaves the database, what it printed with [console.error], and
    the outcome of the request. *)
Definition handled : Type := database * list string * outcome.

(** The [catch] block of every route. *)
Definition caught (db : database) (err msg : string) : handled :=
  (db, [err], Responded 500 (JsonBody (message msg))).

(** [GET /products], [GET /categories] *)
Definition get_route (fault : option string) (c : collection) (db : database)
    : handled :=
  match pool_query fault (SelectData c) db with
  | (db', inl err) => caught db' err (fetch_error c)
  | (db', inr result_rows) =>
      (db', [], Responded 200 (JsonBody (JArr result_rows)))
  end.

(** [POST /products], [POST /categories] *)
Definition post_route (w : world) (fault : option string) (c : collection)
    (db : database) (req_body : record) : handled :=
  let newRecord := <[id_field c := JStr (generateId w (id_prefix c))]> req_body in
  match pool_query fault (InsertData c (JObj newRecord)) db with
  | (db', inl err) => caught db' err (create_error c)
  | (db', inr _) => (db', [], Responded 201 (JsonBody (JObj newRecord)))
  end.

(** [PUT /products/:id], [PUT /categories/:id]; the first parameter of the
    statement is [JSON.stringify(req.body)], read back as [jsonb]. *)
Definition put_route (fault : option string) (c : collection) (db : database)
    (id : string) (req_body : record) : handled :=
  match pool_query fault (UpdateSetId c (JObj req_body) id) db with
  | (db', inl err) => caught db' err (update_error c)
  | (db', inr (first_row :: _)) =>
      (db', [], Responded 200 (JsonBody first_row))
  | (db', inr []) =>
      (db', [], Responded 404 (JsonBody (message (not_found c))))
  end.

(** [DELETE /products/:id], [DELETE /categories/:id] *)
Definition delete_route (fault : option string) (c : collection)
    (db : database) (id : string) : handled :=
  match pool_query fault (DeleteWhereId c id) db with
  | (db', inl err) => caught db' err (delete_error c)
  | (db', inr (_ :: _)) => (db', [], Responded 204 NoBody)
  | (db', inr []) =>
      (db', [], Responded 404 (JsonBody (message (not_found c))))
  end.

End Sql.

End Relational.

(** ** Image upload (the same route in both files) *)

Module Upload.

(** A file part of a multipart request. *)
Record file_part : Type := FilePart {
  originalname : string;
  content : string
}.

(** An object of the bucket, as the storage engine of the middleware is
    configured to write it. *)
Record s3_object : Type := S3Object {
  Key : string;
  ACL : string;
  Metadata_fieldName : string;
  Body : string
}.

(** The bucket: at most one object under a key; a put under a key that is in
    use replaces the object. *)
Abbreviation bucket := (gmap string s3_object).

(** The answer of the object storage to a put: an error, or the public URL of
    the stored object. *)
Inductive s3_reply : Type :=
  | S3Failed (err : string)
  | S3Stored (Location : string).

(** [key]: [`uploads/${Date.now()}_${file.originalname}`] *)
Definition key (w : world) (file : file_part) : string :=
  "uploads/" +:+ Number_toString (Date_now w) +:+ "_" +:+ originalname file.

(** The message of the error the middleware raises for a file it was not
    configured to accept. *)
Definition unexpected_field : string := "Unexpected field".

(** [upload.single("image")] on the file parts of the request, in the order
    they arrive, each with the name of its field.  [accepted] is the key and
    the URL of the file stored so far, if any.  The first file under [image]
    is put into the bucket; any other file part (another field name, or a
    second file under [image]) makes the middleware fail with
    [unexpected_field]: it then removes the object it had stored and passes
    the error on, so that the handler is not called.  An error of the storage
    is passed on in the same way.  A request without file parts (also one
    that is not multipart) reaches the handler with [req.file] undefined. *)
Fixpoint receive (w : world) (reply : s3_reply)
    (parts : list (string * file_part)) (accepted : option (string * string))
    (b : bucket) : bucket * (string + option string) :=
  match parts with
  | [] => (b, inr (snd <$> accepted))
  | (fieldname, file) :: rest =>
      match accepted with
      | None =>
          if String.eqb fieldname "image" then
            match reply with
            | S3Failed err => (b, inl err)
            | S3Stored location =>
                receive w reply rest (Some (key w file, location))
                  (<[key w file :=
                       S3Object (key w file) "public-read" fieldname
                         (content file)]> b)
            end
          else (b, inl unexpected_field)
      | Some (stored_key, _) => (delete stored_key b, inl unexpected_field)
      end
  end.

Definition upload_single (w : world) (reply : s3_reply)
    (parts : list (string * file_part)) (b : bucket)
    : bucket * (string + option string) :=
  receive w reply parts None b.

(** The handler of [POST /upload]: what it prints with [console.log] and the
    response, from [req.file.location] when [req.file] is set. *)
Definition upload_handler (req_file : option string) : list string * outcome :=
  match req_file with
  | None => ([], Responded 400 (JsonBody (message "No file uploaded")))
  | Some fileUrl =>
      (["fileUrl : " +:+ fileUrl],
       Responded 200 (JsonBody (JObj {[ "imageUrl" := JStr fileUrl ]})))
  end.

(** [POST /upload]: the middleware, then the handler; an error of the
    middleware leaves the route without the handler being called. *)
Definition upload_route (w : world) (reply : s3_reply)
    (parts : list (string * file_part)) (b : bucket)
    : bucket * list string * outcome :=
  match upload_single w reply parts b with
  | (b', inl err) => (b', [], Threw err)
  | (b', inr req_file) =>
      let '(printed, out) := upload_handler req_file in
      (b', printed, out)
  end.

End Upload.

(** ** Concrete inputs used to exercise the handlers *)

Module Samples.

Definition no_printer : json -> string := fun _ => "".

Definition sample_world : world := World 1700000000000 (1 # 3).

(** A clock reading with [Math.random() = 0.9987999999999999], the double
    [4498195307817651 / 2 ^ 52]. *)
Definition edge_world : world :=
  World 1700000000000 (4498195307817651 # 4503599627370496).

(** [{"name":"Widget","price":9.99}] *)
Definition widget : record :=
  {[ "name" := JStr "Widget"; "price" := JNum (999 # 100) ]}.

(** [{"price":5}] *)
Definition new_price : record := {[ "price" := JNum 5 ]}.

(** [{"ProductID":"p1","name":"Widget","price":9.99}] *)
Definition stored_widget : record := <["ProductID" := JStr "p1"]> widget.

(** [{"ProductID":"p1","name":"Gadget"}]: a second record under the
    identifier of [stored_widget]. *)
Definition stored_gadget : record :=
  {[ "ProductID" := JStr "p1"; "name" := JStr "Gadget" ]}.

(** [{"ProductID":"p2","name":"Gizmo"}] *)
Definition stored_gizmo : record :=
  {[ "ProductID" := JStr "p2"; "name" := JStr "Gizmo" ]}.

Definition empty_state : FlatFile.state := FlatFile.State [] [] [] false.

Definition one_product : FlatFile.state :=
  FlatFile.State [stored_gizmo; stored_widget] [] [] false.

Definition twin_products : FlatFile.state :=
  FlatFile.State [stored_widget; stored_gizmo; stored_gadget] [] [] false.

Definition empty_database : Relational.database := Relational.Database [] [].

Definition one_row : Relational.database :=
  Relational.Database [JObj stored_gizmo; JObj stored_widget] [].

Definition twin_rows : Relational.database :=
  Relational.Database [JObj stored_widget; JObj stored_gizmo; JObj stored_gadget] [].

Definition photo : Upload.file_part := Upload.FilePart "cat.png" "PNG".

End Samples.

Import Samples.

(** ** The routes as one server *)

Module Router.

(** The requests the CRUD routes answer. *)
Inductive request : Type :=
  | Get (c : collection)
  | Post (c : collection) (req_body : record)
  | Put (c : collection) (id : string) (req_body : record)
  | Delete (c : collection) (id : string).

(** The collection a request is addressed to. *)
Definition target (r : request) : collection :=
  match r with
  | Get c | Post c _ | Put c _ _ | Delete c _ => c
  end.

(** A request as it arrives: what the clock and the generator read while it
    is handled, the error of the one persistence call it may make, if that
    call fails, and the request itself. *)
Record arrival : Type := Arrival {
  at_world : world;
  fault : option string;
  asked : request
}.

(** The routes of [src/server.js], selected by method and path. *)
Definition dispatch (a : arrival) (st : FlatFile.state)
    : FlatFile.state * outcome :=
  match asked a with
  | Get c => FlatFile.get_route c st
  | Post c req_body =>
      FlatFile.post_route (at_world a) (fault a) c st req_body
  | Put c id req_body => FlatFile.put_route (fault a) c st id req_body
  | Delete c id => FlatFile.delete_route (fault a) c st id
  end.

(** The handlers of [src/server.js] are synchronous: requests are handled one
    after the other, each on the arrays the one before left. *)
Fixpoint serve (arrivals : list arrival) (st : FlatFile.state)
    : FlatFile.state :=
  match arrivals with
  | [] => st
  | a :: rest => serve rest (dispatch a st).1
  end.

(** The last content written to [data.json], if a write was made, is the
    content of the two arrays. *)
Definition file_current (st : FlatFile.state) : Prop :=
  match FlatFile.dataFile st with
  | [] => True
  | data :: _ =>
      data = FlatFile.Snapshot (FlatFile.productsData st)
               (FlatFile.categoriesData st)
  end.

(** The routes of [src/unnamed/part_000], selected by method and path. *)
Definition dispatch_sql (jsonb_out : json -> string) (a : arrival)
    (db : Relational.database) : Relational.handled :=
  match asked a with
  | Get c => Relational.get_route jsonb_out (fault a) c db
  | Post c req_body =>
      Relational.post_route jsonb_out (at_world a) (fault a) c db req_body
  | Put c id req_body =>
      Relational.put_route jsonb_out (fault a) c db id req_body
  | Delete c id => Relational.delete_route jsonb_out (fault a) c db id
  end.

(** Sample traffic: a creation, an update and a deletion of products, and a
    creation of a category. *)
Definition busy_morning : list arrival :=
  [ Arrival (World 1700000000000 (1 # 3)) None
      (Post Products {[ "name" := JStr "Widget" ]});
    Arrival (World 1700000000500 (1 # 2)) None
      (Post Categories {[ "name" := JStr "Tools" ]});
    Arrival (World 1700000001000 (1 # 4)) None
      (Put Products "prod_17000000000003333" {[ "price" := JNum 5 ]});
    Arrival (World 1700000002000 (1 # 5)) None
      (Delete Products "prod_17000000000003333");
    Arrival (World 1700000003000 (1 # 5)) None (Get Categories) ].

End Router.

(** ** Facts about the primitives *)

Section Primitives.

Import Js.

Lemma all_digits_app (s t : string) :
  all_digits (s +:+ t) = all_digits s && all_digits t.
Proof.
  induction s as [|a s IH]; simpl; [reflexivity|].
  rewrite IH. apply andb_assoc.
Qed.

Lemma all_digits_uint (d : Decimal.uint) :
  all_digits (NilEmpty.string_of_uint d) = true.
Proof. induction d; simpl; auto. Qed.

(** A number that is not negative prints as one or more decimal digits. *)
Lemma Number_toString_digits (z : Z) :
  (0 <= z)%Z ->
  Number_toString z <> "" /\ all_digits (Number_toString z) = true.
Proof.
  intros Hz. unfold Number_toString.
  destruct z as [|p|p]; [split; [discriminate|reflexivity] | | lia].
  simpl. pose proof (DecimalPos.Unsigned.to_uint_nonnil p) as Hnil.
  pose proof (all_digits_uint (Pos.to_uint p)) as Hd.
  destruct (Pos.to_uint p); [congruence | split; [discriminate | exact Hd] ..].
Qed.

Lemma append_nonempty_l (s t : string) : s <> "" -> s +:+ t <> "".
Proof. destruct s; [congruence | discriminate]. Qed.

(** ** Rounding to a double *)

Lemma round_half_even_close (x : Q) :
  (inject_Z (round_half_even x) - (1 # 2) <= x)%Q /\
  (x <= inject_Z (round_half_even x) + (1 # 2))%Q.
Proof.
  destruct x as [n d]. unfold round_half_even. cbn [Qnum Qden].
  pose proof (Z.div_mod n (Zpos d) ltac:(discriminate)) as Hdm.
  pose proof (Z.mod_pos_bound n (Zpos d) ltac:(reflexivity)) as Hmod.
  set (f := (n / Zpos d)%Z) in *. set (r := (n mod Zpos d)%Z) in *.
  unfold Qle, Qminus, Qplus, Qopp, inject_Z. cbn [Qnum Qden].
  destruct (Z.compare_spec (2 * r) (Zpos d)) as [Heq | Hlt | Hgt];
    [destruct (Z.even f)| |]; rewrite ?Pos2Z.inj_mul; nia.
Qed.

Lemma round_half_even_nonneg (x : Q) :
  (0 <= x)%Q -> (0 <= round_half_even x)%Z.
Proof.
  destruct x as [n d]. unfold Qle. cbn [Qnum Qden]. intros Hn.
  assert (0 <= n / Zpos d)%Z by (apply Z.div_pos; lia).
  unfold round_half_even. cbn [Qnum Qden].
  destruct (Z.compare _ _); [destruct (Z.even _)| |]; lia.
Qed.

Lemma pow2_pos (e : Z) : (0 < pow2 e)%Q.
Proof.
  destruct e as [|p|p]; unfold pow2; [reflexivity | | reflexivity].
  unfold Qlt, inject_Z. cbn [Qnum Qden].
  pose proof (Z.pow_pos_nonneg 2 (Zpos p)). lia.
Qed.

(** The exponent of a positive product below 10000 is at most -39. *)
Lemma Qlog2_below (q : Q) :
  (0 < q)%Q -> (q < 10000)%Q -> (Qlog2 q <= 13)%Z.
Proof.
  destruct q as [n d]. unfold Qlt, Qlog2. cbn [Qnum Qden]. intros Hpos Hlt.
  assert (Hn : (0 < n)%Z) by lia.
  pose proof (Z.log2_spec n Hn) as [Hna _].
  pose proof (Z.log2_spec (Zpos d) ltac:(reflexivity)) as [_ Hdb].
  pose proof (Z.log2_nonneg n) as Ha0.
  pose proof (Z.log2_nonneg (Zpos d)) as Hb0.
  set (a := Z.log2 n) in *. set (b := Z.log2 (Zpos d)) in *.
  assert (Hk : (a - b <= 14)%Z).
  { assert (2 ^ a < 2 ^ (b + 15))%Z.
    { replace (2 ^ (b + 15))%Z with (2 ^ Z.succ b * 16384)%Z
        by (rewrite Z.pow_add_r, !Z.pow_succ_r by lia; lia).
      nia. }
    apply Z.pow_lt_mono_r_iff in H; lia. }
  destruct (Qle_bool (pow2 (a - b)) (n # d)) eqn:Htest; [|lia].
  destruct (Z.eq_dec (a - b)%Z 14%Z) as [H14|]; [|lia].
  rewrite H14 in Htest. apply Qle_bool_iff in Htest.
  unfold Qle, pow2, inject_Z in Htest. cbn [Qnum Qden] in Htest.
  change (2 ^ 14)%Z with 16384%Z in Htest. lia.
Qed.

Lemma pow2_neg_small (p : positive) :
  (39 <= Zpos p)%Z -> (pow2 (Zneg p) <= 1 # 2 ^ 39)%Q.
Proof.
  intros Hp. unfold pow2, Qle. cbn [Qnum Qden].
  rewrite !Pos2Z.inj_pow.
  pose proof (Z.pow_le_mono_r 2 39 (Zpos p) ltac:(lia) Hp). lia.
Qed.

(** [2 ^ (a - b) <= n / d] in integers. *)
Lemma pow2_le_iff (a b n : Z) (d : positive) :
  (0 <= a)%Z -> (0 <= b)%Z ->
  (pow2 (a - b) <= n # d)%Q <-> (2 ^ a * Zpos d <= n * 2 ^ b)%Z.
Proof.
  intros Ha Hb.
  pose proof (Z.pow_pos_nonneg 2 a ltac:(lia) Ha) as Hpa.
  pose proof (Z.pow_pos_nonneg 2 b ltac:(lia) Hb) as Hpb.
  destruct (a - b)%Z as [|q|q] eqn:Hab; unfold pow2, Qle, inject_Z;
    cbn [Qnum Qden].
  - replace a with b by lia. nia.
  - replace a with (b + Zpos q)%Z by lia.
    rewrite Z.pow_add_r by lia.
    pose proof (Z.pow_pos_nonneg 2 (Zpos q) ltac:(lia) ltac:(lia)). nia.
  - replace b with (a + Zpos q)%Z by lia.
    rewrite Z.pow_add_r, Pos2Z.inj_pow by lia.
    pose proof (Z.pow_pos_nonneg 2 (Zpos q) ltac:(lia) ltac:(lia)). nia.
Qed.

(** The significand of the rounded value has at most 53 bits. *)
Lemma significand_bound (y : Q) (p : positive) :
  (0 < y)%Q ->
  Z.max (Qlog2 y - 52) (-1074) = Zneg p ->
  (y * inject_Z (Zpos (2 ^ p)) <= inject_Z (2 ^ 53))%Q.
Proof.
  destruct y as [n d]. unfold Qlt, Qlog2. cbn [Qnum Qden]. intros Hpos He.
  assert (Hn : (0 < n)%Z) by lia.
  pose proof (Z.log2_spec n Hn) as [Hna Hna'].
  pose proof (Z.log2_spec (Zpos d) ltac:(reflexivity)) as [Hdb _].
  pose proof (Z.log2_nonneg n) as Ha0.
  pose proof (Z.log2_nonneg (Zpos d)) as Hb0.
  set (a := Z.log2 n) in *. set (b := Z.log2 (Zpos d)) in *.
  pose proof (Z.pow_pos_nonneg 2 a ltac:(lia) Ha0) as Hpa.
  pose proof (Z.pow_pos_nonneg 2 b ltac:(lia) Hb0) as Hpb.
  unfold Qle, Qmult, inject_Z. cbn [Qnum Qden].
  rewrite Pos2Z.inj_pow, Pos2Z.inj_mul. change (Zpos 1) with 1%Z.
  set (P := (2 ^ Zpos p)%Z).
  assert (HP : (0 < P)%Z) by (apply Z.pow_pos_nonneg; lia).
  destruct (Qle_bool (pow2 (a - b)) (n # d)) eqn:Htest.
  - assert (Hexp : (Zpos p + Z.succ a <= 53 + b)%Z) by lia.
    assert (Hle : (2 ^ (Zpos p + Z.succ a) <= 2 ^ (53 + b))%Z)
      by (apply Z.pow_le_mono_r; lia).
    rewrite !Z.pow_add_r in Hle by lia. fold P in Hle.
    nia.
  - assert (Hlt : (n * 2 ^ b < 2 ^ a * Zpos d)%Z).
    { apply Z.lt_nge. intros Hge.
      apply (pow2_le_iff a b n d Ha0 Hb0) in Hge.
      apply Qle_bool_iff in Hge. congruence. }
    assert (Hexp : (Zpos p + a <= 53 + b)%Z) by lia.
    assert (Hle : (2 ^ (Zpos p + a) <= 2 ^ (53 + b))%Z)
      by (apply Z.pow_le_mono_r; lia).
    rewrite !Z.pow_add_r in Hle by lia. fold P in Hle.
    nia.
Qed.

(** What rounding does to a positive number below 10000: the result is an
    integer of at most 53 bits over a power of two between [2 ^ 39] and
    [2 ^ 1074], and that integer is within one half of the scaled number. *)
Lemma binary64_round_shape (y : Q) :
  (0 < y)%Q -> (y < 10000)%Q ->
  exists (p : positive) (m : Z),
    (39 <= Zpos p <= 1074)%Z /\
    binary64_round y = (inject_Z m * (1 # 2 ^ p))%Q /\
    (0 <= m <= 2 ^ 53)%Z /\
    (inject_Z m - (1 # 2) <= y * inject_Z (Zpos (2 ^ p)))%Q /\
    (y * inject_Z (Zpos (2 ^ p)) <= inject_Z m + (1 # 2))%Q.
Proof.
  intros Hpos Hlt.
  pose proof (Qlog2_below y Hpos Hlt) as Hk.
  unfold binary64_round.
  assert (Hnum : exists n, Qnum y = Zpos n).
  { destruct y as [[|n|n] d]; unfold Qlt in Hpos; cbn in Hpos; try lia. eauto. }
  destruct Hnum as [n ->]. unfold binary64_round_pos.
  destruct (Z.max (Qlog2 y - 52) (-1074)) as [|p|p] eqn:He; try lia.
  exists p, (round_half_even (y / pow2 (Zneg p))).
  split; [lia|]. split; [reflexivity|].
  pose proof (round_half_even_close (y / pow2 (Zneg p))) as [Hlo Hhi].
  pose proof (significand_bound y p Hpos He) as Hsig.
  change (y / pow2 (Zneg p))%Q with (y * inject_Z (Zpos (2 ^ p)))%Q in *.
  split; [|split; assumption].
  split.
  - apply round_half_even_nonneg.
    apply Qmult_le_0_compat; [apply Qlt_le_weak, Hpos | discriminate].
  - assert (Hm : (inject_Z (round_half_even (y * inject_Z (Zpos (2 ^ p))))
                  - (1 # 2) <= inject_Z (2 ^ 53))%Q)
      by (eapply Qle_trans; [exact Hlo | exact Hsig]).
    set (m := round_half_even (y * inject_Z (Zpos (2 ^ p)))) in *.
    unfold Qle, Qminus, Qplus, Qopp, inject_Z in Hm. cbn [Qnum Qden] in Hm.
    lia.
Qed.

Lemma binary64_round_zero (y : Q) : (y == 0)%Q -> binary64_round y = 0%Q.
Proof.
  destruct y as [[|n|n] d]; unfold Qeq; cbn; intros H; try lia. reflexivity.
Qed.

Lemma Qnonneg_cases (y : Q) : (0 <= y)%Q -> (y == 0)%Q \/ (0 < y)%Q.
Proof.
  intros H. destruct (Qlt_le_dec 0 y) as [Hlt|Hle]; [right; exact Hlt|].
  left. apply Qle_antisym; assumption.
Qed.

(** bounds of the rounded value *)
Lemma binary64_round_nonneg (y : Q) :
  (0 <= y)%Q -> (y < 10000)%Q -> (0 <= binary64_round y)%Q.
Proof.
  intros H0 Hlt. destruct (Qnonneg_cases y H0) as [Hz|Hpos].
  - rewrite (binary64_round_zero y Hz). apply Qle_refl.
  - destruct (binary64_round_shape y Hpos Hlt) as (p & m & _ & -> & [Hm _] & _).
    apply Qmult_le_0_compat; [|discriminate].
    unfold Qle, inject_Z; cbn; lia.
Qed.

Lemma binary64_round_le (y : Q) :
  (0 <= y)%Q -> (y < 10000)%Q -> (binary64_round y <= 10000)%Q.
Proof.
  intros H0 Hlt. destruct (Qnonneg_cases y H0) as [Hz|Hpos].
  - rewrite (binary64_round_zero y Hz). discriminate.
  - destruct (binary64_round_shape y Hpos Hlt) as (p & m & [Hp _] & -> & [Hm _] & Hlo & _).
    destruct y as [n d]. unfold Qle, Qlt, Qmult, Qminus, Qplus, Qopp, inject_Z in *.
    cbn [Qnum Qden] in *.
    rewrite ?Pos2Z.inj_mul in *. nia.
Qed.

Lemma binary64_round_close (y : Q) :
  (0 <= y)%Q -> (y < 10000)%Q ->
  (Qabs (binary64_round y - y) <= 1 # 2 ^ 40)%Q.
Proof.
  intros H0 Hlt. destruct (Qnonneg_cases y H0) as [Hz|Hpos].
  - rewrite (binary64_round_zero y Hz).
    apply Qabs_Qle_condition. rewrite Hz. split; discriminate.
  - destruct (binary64_round_shape y Hpos Hlt)
      as (p & m & [Hp _] & -> & [Hm _] & Hlo & Hhi).
    apply Qabs_Qle_condition.
    assert (Hpow : (2 ^ 39 <= Zpos (2 ^ p))%Z).
    { rewrite Pos2Z.inj_pow. apply Z.pow_le_mono_r; lia. }
    destruct y as [n d]. unfold Qle, Qlt, Qmult, Qminus, Qplus, Qopp, inject_Z in *.
    cbn [Qnum Qden] in *.
    rewrite ?Pos2Z.inj_mul in *.
    change (Zpos (2 ^ 40)) with (2 * 2 ^ 39)%Z.
    set (P := Zpos (2 ^ p)) in *. set (D := Zpos d) in *.
    assert (0 < D)%Z by (unfold D; lia).
    split; nia.
Qed.

Lemma binary64_below_one (u : Q) :
  binary64 u -> (u < 1)%Q -> (u <= 1 - (1 # 2 ^ 53))%Q.
Proof.
  intros (m & e & Hm & He & Hu) Hlt. rewrite Hu in Hlt |- *. clear Hu u.
  destruct e as [|p|p]; unfold pow2 in *.
  - unfold Qle, Qlt, Qmult, Qminus, Qplus, Qopp, inject_Z in *.
    cbn [Qnum Qden] in *. lia.
  - pose proof (Z.pow_pos_nonneg 2 (Zpos p) ltac:(lia) ltac:(lia)) as Hpow.
    unfold Qle, Qlt, Qmult, Qminus, Qplus, Qopp, inject_Z in *.
    cbn [Qnum Qden] in *. nia.
  - unfold Qle, Qlt, Qmult, Qminus, Qplus, Qopp, inject_Z in *.
    cbn [Qnum Qden] in *. rewrite ?Pos2Z.inj_mul, ?Pos2Z.inj_pow in *.
    change (Zpos (2 ^ 53)) with (2 ^ 53)%Z.
    destruct (Z.le_gt_cases (Zpos p) 53) as [Hle|Hgt].
    + assert (Hsplit : (2 ^ 53 = 2 ^ Zpos p * 2 ^ (53 - Zpos p))%Z).
      { rewrite <- Z.pow_add_r by lia. f_equal. lia. }
      pose proof (Z.pow_pos_nonneg 2 (Zpos p) ltac:(lia) ltac:(lia)).
      pose proof (Z.pow_pos_nonneg 2 (53 - Zpos p) ltac:(lia) ltac:(lia)).
      nia.
    + pose proof (Z.pow_lt_mono_r 2 53 (Zpos p) ltac:(lia) ltac:(lia) Hgt).
      nia.
Qed.

Lemma binary64_round_lt (u : Q) :
  binary64 u -> (0 <= u)%Q -> (u < 1)%Q ->
  (binary64_round (u * 10000) < 10000)%Q.
Proof.
  intros Hb H0 H1.
  pose proof (binary64_below_one u Hb H1) as Hu.
  assert (Hy0 : (0 <= u * 10000)%Q)
    by (apply Qmult_le_0_compat; [exact H0 | discriminate]).
  assert (Hy1 : (u * 10000 < 10000)%Q).
  { change 10000%Q with (1 * 10000)%Q at 2.
    apply Qmult_lt_r; [reflexivity | exact H1]. }
  pose proof (binary64_round_close _ Hy0 Hy1) as Hclose.
  apply Qabs_Qle_condition in Hclose as [_ Hclose].
  set (r := binary64_round (u * 10000)) in *.
  destruct u as [n d], r as [rn rd].
  unfold Qle, Qlt, Qmult, Qminus, Qplus, Qopp, inject_Z in *.
  cbn [Qnum Qden] in *. rewrite ?Pos2Z.inj_mul in *.
  change (Zpos (2 ^ 53)) with (8192 * 2 ^ 40)%Z in Hu.
  change (Zpos (2 ^ 40)) with (2 ^ 40)%Z in Hclose.
  set (E := (2 ^ 40)%Z) in *. assert (0 < E)%Z by (unfold E; lia).
  nia.
Qed.




(** The rounded value is a double. *)
Lemma binary64_round_double (y : Q) :
  (0 <= y)%Q -> (y < 10000)%Q -> binary64 (binary64_round y).
Proof.
  intros H0 Hlt. destruct (Qnonneg_cases y H0) as [Hz|Hpos].
  - rewrite (binary64_round_zero y Hz). exists 0%Z, 0%Z.
    split; [reflexivity|]. split; [lia | reflexivity].
  - destruct (binary64_round_shape y Hpos Hlt)
      as (p & m & Hp & -> & Hm & _ & _).
    destruct (Z.eq_dec m (2 ^ 53)%Z) as [-> | Hne].
    + exists (2 ^ 52)%Z, (Zneg (Pos.pred p)).
      split; [reflexivity|]. split; [lia|].
      unfold pow2, Qeq, Qmult, inject_Z. cbn [Qnum Qden].
      rewrite !Pos2Z.inj_mul, !Pos2Z.inj_pow.
      replace (Zpos p) with (Z.succ (Zpos (Pos.pred p))) at 1 by lia.
      rewrite Z.pow_succ_r by lia. lia.
    + exists m, (Zneg p).
      split; [lia|]. split; [lia | reflexivity].
Qed.

(** [Math.floor(Math.random() * 10000)] is not negative and not above
    10000. *)
Lemma random_draw_range (w : world) :
  random_in_range w -> (0 <= random_draw w <= 10000)%Z.
Proof.
  intros [Hlo Hhi]. unfold random_draw, Math_floor, binary64_mul.
  assert (Hy0 : (0 <= Math_random w * 10000)%Q)
    by (apply Qmult_le_0_compat; [exact Hlo | discriminate]).
  assert (Hy1 : (Math_random w * 10000 < 10000)%Q).
  { change 10000%Q with (1 * 10000)%Q at 2.
    apply Qmult_lt_r; [reflexivity | exact Hhi]. }
  split.
  - rewrite <- (Qfloor_Z 0). apply Qfloor_resp_le.
    apply binary64_round_nonneg; assumption.
  - rewrite <- (Qfloor_Z 10000). apply Qfloor_resp_le.
    apply binary64_round_le; assumption.
Qed.

(** When [Math.random()] is a double, the draw is at most 9999. *)
Lemma random_draw_below (w : world) :
  random_in_range w -> binary64 (Math_random w) -> (random_draw w <= 9999)%Z.
Proof.
  intros [Hlo Hhi] Hdouble. unfold random_draw, Math_floor, binary64_mul.
  pose proof (binary64_round_lt _ Hdouble Hlo Hhi) as Hlt.
  pose proof (Qfloor_le (binary64_round (Math_random w * 10000))) as Hfloor.
  assert (Hz : (inject_Z (Qfloor (binary64_round (Math_random w * 10000)))
                < inject_Z 10000)%Q)
    by (eapply Qle_lt_trans; [exact Hfloor | exact Hlt]).
  rewrite <- Zlt_Qlt in Hz. lia.
Qed.

(** ** Decimal numerals *)

Lemma of_uint_acc_value (d : Decimal.uint) (acc : positive) :
  Zpos (Pos.of_uint_acc d acc) =
    digits_value_from (Zpos acc) (NilEmpty.string_of_uint d).
Proof.
  revert acc. induction d; intros acc; cbn [Pos.of_uint_acc NilEmpty.string_of_uint digits_value_from];
    [reflexivity
    | rewrite IHd; f_equal; rewrite ?Pos2Z.inj_add, ?Pos2Z.inj_mul;
      match goal with
      | |- context [Z.of_nat ?n] =>
          let v := eval vm_compute in (Z.of_nat n) in
          change (Z.of_nat n) with v
      end; lia ..].
Qed.

Lemma of_uint_value (d : Decimal.uint) :
  Z.of_N (Pos.of_uint d) = digits_value (NilEmpty.string_of_uint d).
Proof.
  unfold digits_value.
  induction d; cbn [Pos.of_uint NilEmpty.string_of_uint digits_value_from];
    [reflexivity | exact IHd | cbn [Z.of_N]; rewrite of_uint_acc_value; reflexivity ..].
Qed.


Lemma nzhead_no_zero (d u : Decimal.uint) : Decimal.nzhead d <> Decimal.D0 u.
Proof. induction d; cbn [Decimal.nzhead]; try discriminate. exact IHd. Qed.

(** The digits of a positive number do not start with a zero. *)
Lemma to_uint_leading (p : positive) (u : Decimal.uint) :
  Pos.to_uint p <> Decimal.D0 u.
Proof.
  intros Hd.
  pose proof (DecimalPos.Unsigned.to_of (Pos.to_uint p)) as Hnorm.
  rewrite DecimalPos.Unsigned.of_to in Hnorm. cbn [N.to_uint] in Hnorm.
  rewrite Hd in Hnorm. unfold Decimal.unorm in Hnorm.
  cbn [Decimal.nzhead] in Hnorm.
  destruct (Decimal.nzhead u) eqn:Hu; try discriminate.
  - injection Hnorm as Hnil. subst u.
    exact (DecimalPos.Unsigned.to_uint_nonzero p Hd).
  - exact (nzhead_no_zero u _ Hu).
Qed.

Lemma Number_toString_numeral (z : Z) :
  (0 <= z)%Z -> numeral z (Number_toString z).
Proof.
  intros Hz. destruct z as [|p|p]; [| |lia].
  - repeat split; try discriminate. left. reflexivity.
  - unfold Number_toString. cbn [Z.to_int NilZero.string_of_int].
    pose proof (DecimalPos.Unsigned.to_uint_nonnil p) as Hnil.
    pose proof (to_uint_leading p) as Hlead.
    pose proof (all_digits_uint (Pos.to_uint p)) as Hd.
    pose proof (of_uint_value (Pos.to_uint p)) as Hv.
    rewrite DecimalPos.Unsigned.of_to in Hv. cbn [Z.of_N] in Hv.
    assert (Hs : NilZero.string_of_uint (Pos.to_uint p) =
                 NilEmpty.string_of_uint (Pos.to_uint p)).
    { destruct (Pos.to_uint p); [congruence | reflexivity ..]. }
    rewrite Hs.
    split; [|split; [exact Hd | split; [symmetry; exact Hv|]]].
    + destruct (Pos.to_uint p); [congruence | discriminate ..].
    + right. destruct (Pos.to_uint p) as [|u|u|u|u|u|u|u|u|u|u];
        [congruence | exfalso; exact (Hlead u eq_refl) | ..];
        cbn [NilEmpty.string_of_uint]; eexists _, _; (split; [reflexivity | discriminate]).
Qed.

Lemma Number_toString_decimal (z : Z) : decimal_of z (Number_toString z).
Proof.
  split.
  - apply Number_toString_numeral.
  - intros Hz. destruct z as [|p|p]; try lia.
    exists (Number_toString (Zpos p)). split; [reflexivity|].
    apply Number_toString_numeral. lia.
Qed.

(** The generated identifier is the prefix followed by digits, when the clock
    is not before the epoch. *)
Lemma generateId_shape (w : world) (prefix : string) :
  (0 <= Date_now w)%Z -> random_in_range w ->
  prefixed_digits prefix (generateId w prefix).
Proof.
  intros Hnow Hrnd.
  destruct (Number_toString_digits (Date_now w) Hnow) as [Hne Hd].
  destruct (Number_toString_digits (random_draw w)) as [_ Hd'].
  { apply random_draw_range, Hrnd. }
  exists (Number_toString (Date_now w) +:+ Number_toString (random_draw w)).
  split; [reflexivity | split].
  - apply append_nonempty_l, Hne.
  - rewrite all_digits_app, Hd, Hd'. reflexivity.
Qed.

End Primitives.

(** ** Facts about [findIndex] and [splice] *)

Section Arrays.

Context {A : Type}.
Implicit Types (p : A -> bool) (l : list A) (i j : nat) (x y : A).

(** [findIndex] returns the least index whose element satisfies [p]. *)
Lemma findIndex_Some p l i :
  findIndex p l = Some i ->
  exists x, l !! i = Some x /\ p x = true /\
    forall j y, (j < i)%nat -> l !! j = Some y -> p y = false.
Proof.
  revert i. induction l as [|a l IH]; intros i Hfind; simpl in Hfind.
  - discriminate.
  - destruct (p a) eqn:Hpa.
    + injection Hfind as <-. exists a. repeat split; [exact Hpa|]. lia.
    + destruct (findIndex p l) as [k|] eqn:Hk; simpl in Hfind; [|discriminate].
      injection Hfind as <-. destruct (IH k eq_refl) as (x & Hx & Hpx & Hmin).
      exists x. repeat split; [exact Hx | exact Hpx |].
      intros [|j] y Hlt Hy; simpl in Hy.
      * congruence.
      * apply (Hmin j); [lia | exact Hy].
Qed.

Lemma findIndex_None p l :
  findIndex p l = None -> forall x, x ∈ l -> p x = false.
Proof.
  induction l as [|a l IH]; intros Hfind x Hx.
  - inversion Hx.
  - simpl in Hfind. destruct (p a) eqn:Hpa; [discriminate|].
    destruct (findIndex p l) eqn:Hk; [discriminate|].
    apply elem_of_cons in Hx as [-> | Hx]; [exact Hpa | exact (IH eq_refl x Hx)].
Qed.

Lemma findIndex_none_of p l :
  (forall x, x ∈ l -> p x = false) -> findIndex p l = None.
Proof.
  intros Hall. destruct (findIndex p l) as [i|] eqn:Hfind; [|reflexivity].
  destruct (findIndex_Some _ _ _ Hfind) as (x & Hx & Hpx & _).
  rewrite (Hall x) in Hpx; [discriminate|].
  apply list_elem_of_lookup. eauto.
Qed.

Lemma findIndex_some_of p l x :
  x ∈ l -> p x = true -> exists i, findIndex p l = Some i.
Proof.
  intros Hx Hpx. destruct (findIndex p l) as [i|] eqn:Hfind; [eauto|].
  rewrite (findIndex_None _ _ Hfind x Hx) in Hpx. discriminate.
Qed.

Lemma splice_length i l :
  (i < length l)%nat -> (length (splice i l) + 1 = length l)%nat.
Proof.
  intros Hi. unfold splice.
  rewrite length_app, length_take, length_drop. lia.
Qed.

Lemma splice_lookup_before i l j :
  (j < i)%nat -> splice i l !! j = l !! j.
Proof.
  intros Hj. unfold splice.
  destruct (decide (i <= length l)%nat) as [Hi|Hi].
  - rewrite lookup_app_l by (rewrite length_take; lia).
    apply lookup_take_lt. exact Hj.
  - rewrite take_ge, drop_ge, app_nil_r by lia. reflexivity.
Qed.

Lemma splice_lookup_after i l j :
  (i <= j)%nat -> (i < length l)%nat -> splice i l !! j = l !! S j.
Proof.
  intros Hj Hi. unfold splice.
  rewrite lookup_app_r by (rewrite length_take; lia).
  rewrite length_take, lookup_drop. f_equal. lia.
Qed.

(** Every element that is left by [splice] was at another index. *)
Lemma splice_elem_of i l y :
  y ∈ splice i l -> exists j, j <> i /\ l !! j = Some y.
Proof.
  intros Hy. apply list_elem_of_lookup in Hy as [k Hk].
  destruct (decide (k < i)%nat) as [Hlt|Hge].
  - rewrite splice_lookup_before in Hk by exact Hlt. exists k. split; [lia|exact Hk].
  - destruct (decide (i < length l)%nat) as [Hi|Hi].
    + rewrite splice_lookup_after in Hk by lia. exists (S k). split; [lia|exact Hk].
    + unfold splice in Hk. rewrite take_ge, drop_ge, app_nil_r in Hk by lia.
      apply lookup_lt_Some in Hk. lia.
Qed.

End Arrays.

(** ** The identifier generator *)

(** C8: for every prefix, [generateId] returns the prefix, then the decimal
    numeral of the current time in milliseconds since the epoch, then the
    decimal numeral of the draw, and nothing else; it is a total function, so
    it cannot fail.  The draw is the integer part of the product of
    [Math.random()] and 10000 as doubles multiply: a double within
    [2 ^ -40] of the exact product.  The draw lies in the range 0..10000 of
    the specification, and is at most 9999 when [Math.random()] is a
    double. *)
Theorem generateId_concatenation (w : world) (prefix : string) :
  random_in_range w ->
  exists (stamp digits : string) (product : Q) (draw : Z),
    generateId w prefix = prefix +:+ stamp +:+ digits /\
    decimal_of (Date_now w) stamp /\
    decimal_of draw digits /\
    product = binary64_mul (Math_random w) 10000 /\
    binary64 product /\
    (Qabs (product - Math_random w * 10000) <= 1 # 2 ^ 40)%Q /\
    (inject_Z draw <= product)%Q /\
    (product < inject_Z (draw + 1))%Q /\
    (0 <= draw <= 10000)%Z /\
    (binary64 (Math_random w) -> (draw <= 9999)%Z).
Proof.
  intros Hrnd.
  exists (Number_toString (Date_now w)), (Number_toString (random_draw w)),
    (binary64_mul (Math_random w) 10000), (random_draw w).
  split; [reflexivity|].
  split; [apply Number_toString_decimal|].
  split; [apply Number_toString_decimal|].
  split; [reflexivity|].
  assert (Hy0 : (0 <= Math_random w * 10000)%Q)
    by (apply Qmult_le_0_compat; [apply Hrnd | discriminate]).
  assert (Hy1 : (Math_random w * 10000 < 10000)%Q).
  { change 10000%Q with (1 * 10000)%Q at 2.
    apply Qmult_lt_r; [reflexivity | apply Hrnd]. }
  split; [apply binary64_round_double; assumption|].
  split; [apply binary64_round_close; assumption|].
  split; [apply Qfloor_le|].
  split; [apply Qlt_floor|].
  split; [apply random_draw_range, Hrnd|].
  apply random_draw_below, Hrnd.
Qed.

Example generateId_sample :
  generateId sample_world "prod_" = "prod_17000000000003333".
Proof. reflexivity. Qed.

(** At [Math.random() = 0.9987999999999999] the product of the doubles is
    9988, where the exact product is below 9988. *)
Example generateId_edge_sample :
  generateId edge_world "prod_" = "prod_17000000000009988" /\
  Qfloor (Math_random edge_world * 10000) = 9987%Z /\
  binary64 (Math_random edge_world).
Proof.
  split; [vm_compute; reflexivity|]. split; [vm_compute; reflexivity|].
  exists 4498195307817651%Z, (-52)%Z.
  split; [reflexivity|]. split; [lia | reflexivity].
Qed.

Lemma generateId_concatenation_witness :
  exists (stamp digits : string) (product : Q) (draw : Z),
    generateId edge_world "prod_" = "prod_" +:+ stamp +:+ digits /\
    decimal_of 1700000000000 stamp /\
    decimal_of draw digits /\
    product = binary64_mul (Math_random edge_world) 10000 /\
    binary64 product /\
    (Qabs (product - Math_random edge_world * 10000) <= 1 # 2 ^ 40)%Q /\
    (inject_Z draw <= product)%Q /\
    (product < inject_Z (draw + 1))%Q /\
    (0 <= draw <= 10000)%Z /\
    (binary64 (Math_random edge_world) -> (draw <= 9999)%Z).
Proof.
  apply (generateId_concatenation edge_world "prod_").
  split; [unfold Qle | unfold Qlt]; simpl; lia.
Defined.

(** ** Creation *)

Section Creation.

Variable jsonb_out : json -> string.

(** C4: for every creation payload, when the store accepts the write,
    [POST /products] ([POST /categories]) answers 201 with the fields of the
    payload and the identifier field set to a generated identifier, which is
    [prod_] ([cat_]) followed by digits and is computed from the clock and
    the random generator only; this holds in both deployments. *)
Theorem post_assigns_identifier (w : world) (c : collection)
    (st : FlatFile.state) (db : Relational.database) (req_body : record) :
  (0 <= Date_now w)%Z -> random_in_range w ->
  let id := generateId w (id_prefix c) in
  let created : record := <[id_field c := JStr id]> req_body in
  prefixed_digits (id_prefix c) id /\
  id <> "" /\
  created !! id_field c = Some (JStr id) /\
  (forall k, k <> id_field c -> created !! k = req_body !! k) /\
  (FlatFile.post_route w None c st req_body).2 =
    Responded 201 (JsonBody (JObj created)) /\
  (Relational.post_route jsonb_out w None c db req_body).2 =
    Responded 201 (JsonBody (JObj created)).
Proof.
  intros Hnow Hrnd id created.
  assert (Hshape : prefixed_digits (id_prefix c) id)
    by (apply generateId_shape; assumption).
  split; [exact Hshape|]. split.
  { destruct Hshape as (ds & -> & Hds & _). destruct c; discriminate. }
  split; [apply lookup_insert_eq|].
  split; [intros k Hk; apply lookup_insert_ne; congruence|].
  split; destruct c; reflexivity.
Qed.

(** C5: in every state of the store, creating a record and then listing the
    collection gives a list that contains the record the creation returned,
    with all its fields and its identifier; this holds in both deployments
    when the store accepts the requests. *)
Theorem create_then_list (w : world) (c : collection)
    (st : FlatFile.state) (db : Relational.database) (req_body : record) :
  (exists created st',
     FlatFile.post_route w None c st req_body =
       (st', Responded 201 (JsonBody (JObj created))) /\
     exists listed,
       FlatFile.get_route c st' =
         (st', Responded 200 (JsonBody (JArr listed))) /\
       JObj created ∈ listed) /\
  (exists created db',
     Relational.post_route jsonb_out w None c db req_body =
       (db', [], Responded 201 (JsonBody (JObj created))) /\
     exists listed,
       Relational.get_route jsonb_out None c db' =
         (db', [], Responded 200 (JsonBody (JArr listed))) /\
       JObj created ∈ listed).
Proof.
  split.
  - eexists _, _. split; [reflexivity|].
    eexists. split; [reflexivity|].
    destruct c; simpl; rewrite fmap_app; apply elem_of_app; right;
      apply list_elem_of_singleton; reflexivity.
  - eexists _, _. split; [reflexivity|].
    eexists. split; [reflexivity|].
    destruct c; simpl; apply elem_of_app; right;
      apply list_elem_of_singleton; reflexivity.
Qed.

End Creation.

Lemma post_assigns_identifier_witness :
  prefixed_digits "prod_" (generateId sample_world "prod_") /\
  generateId sample_world "prod_" <> "" /\
  (<["ProductID" := JStr (generateId sample_world "prod_")]> widget : record)
    !! "ProductID" = Some (JStr (generateId sample_world "prod_")) /\
  (forall k, k <> "ProductID" ->
     (<["ProductID" := JStr (generateId sample_world "prod_")]> widget : record)
       !! k = widget !! k) /\
  (FlatFile.post_route sample_world None Products empty_state widget).2 =
    Responded 201 (JsonBody (JObj
      (<["ProductID" := JStr (generateId sample_world "prod_")]> widget))) /\
  (Relational.post_route no_printer sample_world None Products empty_database
     widget).2 =
    Responded 201 (JsonBody (JObj
      (<["ProductID" := JStr (generateId sample_world "prod_")]> widget))).
Proof.
  apply (post_assigns_identifier no_printer sample_world Products empty_state
           empty_database widget).
  - simpl. lia.
  - split; [unfold Qle | unfold Qlt]; simpl; lia.
Defined.

Example post_widget_sample :
  (FlatFile.post_route sample_world None Products empty_state widget).2 =
    Responded 201 (JsonBody (JObj
      {[ "name" := JStr "Widget"; "price" := JNum (999 # 100);
         "ProductID" := JStr "prod_17000000000003333" ]})).
Proof. vm_compute. reflexivity. Qed.

(** ** Update and deletion in the flat-file deployment *)

Section FlatFileFacts.

Import FlatFile.

Implicit Types (c : collection) (st : state) (id : string).

Lemma rows_set_rows c l st : rows c (set_rows c l st) = l.
Proof. destruct c; reflexivity. Qed.

(** The arrays after [save_then] are the arrays before it, whether the write
    fails or not. *)
Lemma rows_save_then fault c st respond :
  rows c (save_then fault st respond).1 = rows c st.
Proof. destruct fault, c; reflexivity. Qed.

(** The first record with the identifier is the one [findIndex] locates. *)
Lemma findIndex_first {A : Type} (p : A -> bool) (l : list A) (i : nat) (x : A) :
  l !! i = Some x -> p x = true ->
  (forall j y, (j < i)%nat -> l !! j = Some y -> p y = false) ->
  findIndex p l = Some i.
Proof.
  intros Hx Hpx Hfirst.
  destruct (findIndex_some_of p l x) as [k Hk];
    [apply list_elem_of_lookup; eauto | exact Hpx |].
  destruct (findIndex_Some _ _ _ Hk) as (y & Hy & Hpy & Hmin).
  destruct (Nat.lt_trichotomy k i) as [Hlt | [-> | Hgt]].
  - rewrite (Hfirst k y Hlt Hy) in Hpy. discriminate.
  - exact Hk.
  - rewrite (Hmin i x Hgt Hx) in Hpx. discriminate.
Qed.

Lemma put_route_found fault c st id req_body index existing :
  findIndex (field_is (id_field c) id) (rows c st) = Some index ->
  rows c st !! index = Some existing ->
  put_route fault c st id req_body =
    save_then fault
      (set_rows c (<[index := spread existing req_body]> (rows c st)) st)
      (Responded 200 (JsonBody (JObj (spread existing req_body)))).
Proof. intros Hfind Hex. unfold put_route. rewrite Hfind, Hex. reflexivity. Qed.

Lemma delete_route_found fault c st id index :
  findIndex (field_is (id_field c) id) (rows c st) = Some index ->
  delete_route fault c st id =
    save_then fault (set_rows c (splice index (rows c st)) st)
      (Responded 204 NoBody).
Proof. intros Hfind. unfold delete_route. rewrite Hfind. reflexivity. Qed.

End FlatFileFacts.

(** C3: in the flat-file deployment, when a stored record carries the
    identifier of the path, [PUT] answers 200 with the fields of the body
    written over the fields of that record (of the first one in the array
    when several carry the identifier): every field of the body is in the
    result with the value of the body, the identifier field included, every
    other field keeps its stored value, and the merged record replaces the
    stored one in the array and in the file. *)
Theorem put_merges_body (c : collection) (st : FlatFile.state) (id : string)
    (req_body : record) :
  (exists r, r ∈ FlatFile.rows c st /\ field_is (id_field c) id r = true) ->
  exists index existing merged st',
    FlatFile.rows c st !! index = Some existing /\
    field_is (id_field c) id existing = true /\
    (forall j y, (j < index)%nat -> FlatFile.rows c st !! j = Some y ->
       field_is (id_field c) id y = false) /\
    FlatFile.put_route None c st id req_body =
      (st', Responded 200 (JsonBody (JObj merged))) /\
    (forall k v, req_body !! k = Some v -> merged !! k = Some v) /\
    (forall v, req_body !! id_field c = Some v ->
       merged !! id_field c = Some v) /\
    (forall k, req_body !! k = None -> merged !! k = existing !! k) /\
    FlatFile.rows c st' = <[index := merged]> (FlatFile.rows c st) /\
    FlatFile.rows c st' !! index = Some merged /\
    FlatFile.dataFile st' =
      FlatFile.Snapshot (FlatFile.productsData st') (FlatFile.categoriesData st')
        :: FlatFile.dataFile st.
Proof.
  intros (r & Hr & Hid).
  destruct (findIndex_some_of _ _ _ Hr Hid) as [index Hfind].
  destruct (findIndex_Some _ _ _ Hfind) as (existing & Hex & Hmatch & Hfirst).
  exists index, existing, (spread existing req_body). eexists.
  split; [exact Hex|]. split; [exact Hmatch|]. split; [exact Hfirst|].
  split; [rewrite (put_route_found _ _ _ _ _ _ _ Hfind Hex); reflexivity|].
  assert (Hover : forall k v, req_body !! k = Some v ->
                    spread existing req_body !! k = Some v).
  { intros k v Hk. unfold spread. apply lookup_union_Some_l, Hk. }
  split; [exact Hover|]. split; [apply Hover|]. split.
  { intros k Hk. unfold spread. apply lookup_union_r, Hk. }
  split; [destruct c; reflexivity|]. split.
  - destruct c; simpl; apply list_lookup_insert_eq;
      apply lookup_lt_Some in Hex; exact Hex.
  - destruct c; reflexivity.
Qed.

Lemma put_merges_body_witness :
  exists index existing merged st',
    FlatFile.rows Products one_product !! index = Some existing /\
    field_is "ProductID" "p1" existing = true /\
    (forall j y, (j < index)%nat ->
       FlatFile.rows Products one_product !! j = Some y ->
       field_is "ProductID" "p1" y = false) /\
    FlatFile.put_route None Products one_product "p1" new_price =
      (st', Responded 200 (JsonBody (JObj merged))) /\
    (forall k v, new_price !! k = Some v -> merged !! k = Some v) /\
    (forall v, new_price !! "ProductID" = Some v ->
       merged !! "ProductID" = Some v) /\
    (forall k, new_price !! k = None -> merged !! k = existing !! k) /\
    FlatFile.rows Products st' =
      <[index := merged]> (FlatFile.rows Products one_product) /\
    FlatFile.rows Products st' !! index = Some merged /\
    FlatFile.dataFile st' =
      FlatFile.Snapshot (FlatFile.productsData st') (FlatFile.categoriesData st')
        :: FlatFile.dataFile one_product.
Proof.
  apply (put_merges_body Products one_product "p1" new_price).
  exists stored_widget. split; [|vm_compute; reflexivity].
  apply list_elem_of_further, list_elem_of_here.
Defined.

Example put_price_sample :
  (FlatFile.put_route None Products one_product "p1" new_price).2 =
    Responded 200 (JsonBody (JObj
      {[ "ProductID" := JStr "p1"; "name" := JStr "Widget";
         "price" := JNum 5 ]})).
Proof. vm_compute. reflexivity. Qed.

(** The identifier of a stored record is replaced when the body names it. *)
Example put_identifier_sample :
  FlatFile.productsData
    (FlatFile.put_route None Products one_product "p2"
       {[ "ProductID" := JStr "p1" ]}).1 =
    [ {[ "ProductID" := JStr "p1"; "name" := JStr "Gizmo" ]}; stored_widget ].
Proof. vm_compute. reflexivity. Qed.

(** C10: in the flat-file deployment, [PUT] and [DELETE] act on the first
    record in insertion order that carries the identifier, and on no other:
    after [PUT] every other index holds the record it held, after [DELETE]
    the records before keep their index and the records after move down by
    one, so a later record with the same identifier is still stored,
    unchanged, in both cases.  The arrays are updated before the file is
    written, so this holds whether the write fails or not. *)
Theorem first_match_only (fault : option string) (c : collection)
    (st : FlatFile.state) (id : string) (req_body : record)
    (first : nat) (existing : record) :
  FlatFile.rows c st !! first = Some existing ->
  field_is (id_field c) id existing = true ->
  (forall j y, (j < first)%nat -> FlatFile.rows c st !! j = Some y ->
     field_is (id_field c) id y = false) ->
  let after_put := FlatFile.rows c (FlatFile.put_route fault c st id req_body).1 in
  let after_delete := FlatFile.rows c (FlatFile.delete_route fault c st id).1 in
  after_put = <[first := spread existing req_body]> (FlatFile.rows c st) /\
  (forall j, j <> first -> after_put !! j = FlatFile.rows c st !! j) /\
  after_delete = splice first (FlatFile.rows c st) /\
  (forall j, (j < first)%nat -> after_delete !! j = FlatFile.rows c st !! j) /\
  (forall j, (first <= j)%nat ->
     after_delete !! j = FlatFile.rows c st !! S j) /\
  (forall later twin, (first < later)%nat ->
     FlatFile.rows c st !! later = Some twin ->
     field_is (id_field c) id twin = true ->
     after_put !! later = Some twin /\
     after_delete !! (later - 1)%nat = Some twin).
Proof.
  intros Hex Hid Hfirst after_put after_delete.
  pose proof (findIndex_first _ _ _ _ Hex Hid Hfirst) as Hfind.
  pose proof (lookup_lt_Some _ _ _ Hex) as Hlen.
  assert (Hput : after_put =
                   <[first := spread existing req_body]> (FlatFile.rows c st)).
  { unfold after_put. rewrite (put_route_found _ _ _ _ _ _ _ Hfind Hex).
    rewrite rows_save_then. apply rows_set_rows. }
  assert (Hdel : after_delete = splice first (FlatFile.rows c st)).
  { unfold after_delete. rewrite (delete_route_found _ _ _ _ _ Hfind).
    rewrite rows_save_then. apply rows_set_rows. }
  assert (Hothers : forall j, j <> first ->
                      after_put !! j = FlatFile.rows c st !! j).
  { intros j Hj. rewrite Hput. apply list_lookup_insert_ne. congruence. }
  assert (Hafter : forall j, (first <= j)%nat ->
                     after_delete !! j = FlatFile.rows c st !! S j).
  { intros j Hj. rewrite Hdel. apply splice_lookup_after; assumption. }
  split; [exact Hput|]. split; [exact Hothers|]. split; [exact Hdel|].
  split; [intros j Hj; rewrite Hdel; apply splice_lookup_before, Hj|].
  split; [exact Hafter|].
  intros later twin Hlater Htwin _. split.
  - rewrite Hothers by lia. exact Htwin.
  - rewrite Hafter by lia. replace (S (later - 1)) with later by lia. exact Htwin.
Qed.

Lemma first_match_only_witness :
  let after_put :=
    FlatFile.rows Products
      (FlatFile.put_route None Products twin_products "p1" new_price).1 in
  let after_delete :=
    FlatFile.rows Products
      (FlatFile.delete_route None Products twin_products "p1").1 in
  after_put =
    <[0%nat := spread stored_widget new_price]>
      (FlatFile.rows Products twin_products) /\
  (forall j, j <> 0%nat ->
     after_put !! j = FlatFile.rows Products twin_products !! j) /\
  after_delete = splice 0 (FlatFile.rows Products twin_products) /\
  (forall j, (j < 0)%nat ->
     after_delete !! j = FlatFile.rows Products twin_products !! j) /\
  (forall j, (0 <= j)%nat ->
     after_delete !! j = FlatFile.rows Products twin_products !! S j) /\
  (forall later twin, (0 < later)%nat ->
     FlatFile.rows Products twin_products !! later = Some twin ->
     field_is "ProductID" "p1" twin = true ->
     after_put !! later = Some twin /\
     after_delete !! (later - 1)%nat = Some twin).
Proof.
  apply (first_match_only None Products twin_products "p1" new_price 0
           stored_widget).
  - reflexivity.
  - vm_compute. reflexivity.
  - intros j y Hj. lia.
Defined.

Example put_twin_sample :
  FlatFile.productsData
    (FlatFile.put_route None Products twin_products "p1" new_price).1 =
    [ <["price" := JNum 5]> stored_widget; stored_gizmo; stored_gadget ].
Proof. vm_compute. reflexivity. Qed.

Example delete_twin_sample :
  FlatFile.delete_route None Products twin_products "p1" =
    (FlatFile.State [stored_gizmo; stored_gadget] []
       [FlatFile.Snapshot [stored_gizmo; stored_gadget] []] false,
     Responded 204 NoBody).
Proof. vm_compute. reflexivity. Qed.

(** ** Facts about the statements of the relational deployment *)

Section SqlFacts.

Import Relational.

Variable jsonb_out : json -> string.

Implicit Types (c : collection) (db : database) (id key : string).

Lemma table_set_table c t db : table c (set_table c t db) = t.
Proof. destruct c; reflexivity. Qed.

Lemma set_table_same c db : set_table c (table c db) db = db.
Proof. destruct c, db; reflexivity. Qed.

Lemma filter_none {A : Type} (f : A -> bool) (l : list A) :
  (forall x, x ∈ l -> f x = false) -> List.filter f l = [].
Proof.
  induction l as [|a l IH]; intros Hall; simpl; [reflexivity|].
  rewrite (Hall a) by apply list_elem_of_here.
  apply IH. intros x Hx. apply Hall, list_elem_of_further, Hx.
Qed.

Lemma filter_all {A : Type} (f : A -> bool) (l : list A) :
  (forall x, x ∈ l -> f x = false) -> List.filter (fun x => negb (f x)) l = l.
Proof.
  induction l as [|a l IH]; intros Hall; simpl; [reflexivity|].
  rewrite (Hall a) by apply list_elem_of_here. simpl. f_equal.
  apply IH. intros x Hx. apply Hall, list_elem_of_further, Hx.
Qed.

Lemma filter_split_length {A : Type} (f : A -> bool) (l : list A) :
  (length (List.filter (fun x => negb (f x)) l) + length (List.filter f l)
   = length l)%nat.
Proof.
  induction l as [|a l IH]; simpl; [reflexivity|].
  destruct (f a); simpl; lia.
Qed.

Lemma filter_some {A : Type} (f : A -> bool) (l : list A) (x : A) :
  x ∈ l -> f x = true -> exists y rest, List.filter f l = y :: rest.
Proof.
  intros Hx Hfx.
  destruct (List.filter f l) as [|y rest] eqn:Hfl; [|eauto].
  assert (Hin : In x (List.filter f l)).
  { apply filter_In. split; [apply list_elem_of_In, Hx | exact Hfx]. }
  rewrite Hfl in Hin. destruct Hin.
Qed.

Lemma filter_rejects {A : Type} (f : A -> bool) (l : list A) (x : A) :
  x ∈ List.filter (fun y => negb (f y)) l -> x ∈ l /\ f x = false.
Proof.
  intros Hx. apply list_elem_of_In, filter_In in Hx as [Hin Hf].
  split; [apply list_elem_of_In, Hin | apply negb_true_iff, Hf].
Qed.

(** A string identifier in an object row is what [->>] compares. *)
Lemma where_id_string key id (fields : record) :
  fields !! key = Some (JStr id) ->
  where_id jsonb_out key id (JObj fields) = true.
Proof.
  intros Hk. unfold where_id, field_text. rewrite Hk. simpl.
  apply String.eqb_refl.
Qed.

End SqlFacts.

(** ** Requests for an identifier that is not stored *)

(** C6: when no stored record carries the identifier of the path, [PUT] and
    [DELETE] answer 404 with the not-found message and the store is the one
    before the request: in the flat-file deployment both arrays and the file
    are untouched (no write is made, so a failing disk changes nothing); in
    the relational deployment, where the statement runs and selects no row,
    both tables are untouched. *)
Theorem missing_identifier (jsonb_out : json -> string) (fault : option string)
    (c : collection) (id : string) (req_body : record)
    (st : FlatFile.state) (db : Relational.database) :
  ((forall r, r ∈ FlatFile.rows c st -> field_is (id_field c) id r = false) ->
   FlatFile.put_route fault c st id req_body =
     (st, Responded 404 (JsonBody (message (not_found c)))) /\
   FlatFile.delete_route fault c st id =
     (st, Responded 404 (JsonBody (message (not_found c))))) /\
  ((forall doc, doc ∈ Relational.table c db ->
      Relational.where_id jsonb_out (id_field c) id doc = false) ->
   Relational.put_route jsonb_out None c db id req_body =
     (db, [], Responded 404 (JsonBody (message (not_found c)))) /\
   Relational.delete_route jsonb_out None c db id =
     (db, [], Responded 404 (JsonBody (message (not_found c))))).
Proof.
  split.
  - intros Hnone. apply findIndex_none_of in Hnone.
    unfold FlatFile.put_route, FlatFile.delete_route. rewrite Hnone.
    split; reflexivity.
  - intros Hnone.
    unfold Relational.put_route, Relational.delete_route,
      Relational.pool_query, Relational.execute.
    rewrite (filter_none _ _ Hnone), (filter_all _ _ Hnone).
    cbn [fmap list_fmap]. rewrite app_nil_r, set_table_same.
    split; reflexivity.
Qed.

Lemma missing_identifier_witness :
  (FlatFile.put_route (Some "EIO") Products one_product "prod_123" new_price =
     (one_product, Responded 404 (JsonBody (message "Product not found"))) /\
   FlatFile.delete_route (Some "EIO") Products one_product "prod_123" =
     (one_product, Responded 404 (JsonBody (message "Product not found")))) /\
  (Relational.put_route no_printer None Products one_row "prod_123" new_price =
     (one_row, [], Responded 404 (JsonBody (message "Product not found"))) /\
   Relational.delete_route no_printer None Products one_row "prod_123" =
     (one_row, [], Responded 404 (JsonBody (message "Product not found")))).
Proof.
  destruct (missing_identifier no_printer (Some "EIO") Products "prod_123"
              new_price one_product one_row) as [Hflat Hrel].
  split.
  - apply Hflat. intros r Hr.
    repeat (apply elem_of_cons in Hr as [-> | Hr]; [vm_compute; reflexivity|]).
    inversion Hr.
  - apply Hrel. intros doc Hdoc.
    repeat (apply elem_of_cons in Hdoc as [-> | Hdoc]; [vm_compute; reflexivity|]).
    inversion Hdoc.
Defined.

(** ** Deletion of a stored identifier *)

(** C7, as the code has it: when some stored record carries the identifier,
    [DELETE] answers 204 without a body.  In the flat-file deployment exactly
    one record is removed, the first that carries the identifier (no record
    before it carries it), so the collection has one record less, and a later
    list has no record with the identifier provided no other stored record
    carried it.  In the relational
    deployment every row whose identifier text is the identifier is removed:
    a later list has none, and the table shrinks by the number of such
    rows. *)
Theorem delete_existing (jsonb_out : json -> string) (c : collection)
    (id : string) (st : FlatFile.state) (db : Relational.database) :
  ((exists r, r ∈ FlatFile.rows c st /\ field_is (id_field c) id r = true) ->
   exists first removed st',
     FlatFile.delete_route None c st id = (st', Responded 204 NoBody) /\
     FlatFile.rows c st !! first = Some removed /\
     field_is (id_field c) id removed = true /\
     (forall j y, (j < first)%nat -> FlatFile.rows c st !! j = Some y ->
        field_is (id_field c) id y = false) /\
     FlatFile.rows c st' = splice first (FlatFile.rows c st) /\
     (length (FlatFile.rows c st') + 1 = length (FlatFile.rows c st))%nat /\
     (FlatFile.get_route c st').2 =
       Responded 200 (JsonBody (JArr (JObj <$> FlatFile.rows c st'))) /\
     ((forall j y, j <> first -> FlatFile.rows c st !! j = Some y ->
         field_is (id_field c) id y = false) ->
      forall y, y ∈ FlatFile.rows c st' -> field_is (id_field c) id y = false)) /\
  ((exists doc, doc ∈ Relational.table c db /\
      Relational.where_id jsonb_out (id_field c) id doc = true) ->
   exists db',
     Relational.delete_route jsonb_out None c db id =
       (db', [], Responded 204 NoBody) /\
     Relational.table c db' =
       List.filter
         (fun doc => negb (Relational.where_id jsonb_out (id_field c) id doc))
         (Relational.table c db) /\
     (Relational.get_route jsonb_out None c db').2 =
       Responded 200 (JsonBody (JArr (Relational.table c db'))) /\
     (forall doc, doc ∈ Relational.table c db' ->
        Relational.where_id jsonb_out (id_field c) id doc = false) /\
     (length (Relational.table c db') +
      length (List.filter (Relational.where_id jsonb_out (id_field c) id)
                (Relational.table c db))
      = length (Relational.table c db))%nat).
Proof.
  split.
  - intros (r & Hr & Hid).
    destruct (findIndex_some_of _ _ _ Hr Hid) as [first Hfind].
    destruct (findIndex_Some _ _ _ Hfind) as (removed & Hrem & Hprem & Hfirst).
    pose proof (lookup_lt_Some _ _ _ Hrem) as Hlen.
    set (st' := (FlatFile.delete_route None c st id).1).
    assert (Hroute : FlatFile.delete_route None c st id =
                       (st', Responded 204 NoBody)).
    { unfold st'. rewrite (delete_route_found _ _ _ _ _ Hfind). reflexivity. }
    assert (Hrows : FlatFile.rows c st' = splice first (FlatFile.rows c st)).
    { unfold st'. rewrite (delete_route_found _ _ _ _ _ Hfind).
      rewrite rows_save_then. apply rows_set_rows. }
    exists first, removed, st'.
    split; [exact Hroute|]. split; [exact Hrem|]. split; [exact Hprem|].
    split; [exact Hfirst|]. split; [exact Hrows|].
    split; [rewrite Hrows; apply splice_length, Hlen|].
    split; [reflexivity|].
    intros Hunique y Hy. rewrite Hrows in Hy.
    apply splice_elem_of in Hy as (j & Hj & Hy). exact (Hunique j y Hj Hy).
  - intros (doc & Hdoc & Hid).
    destruct (filter_some _ _ _ Hdoc Hid) as (y & rest & Hhit).
    eexists. unfold Relational.delete_route, Relational.pool_query,
      Relational.execute. rewrite Hhit.
    split; [reflexivity|].
    split; [apply table_set_table|].
    split.
    { unfold Relational.get_route, Relational.pool_query, Relational.execute.
      simpl. rewrite table_set_table. reflexivity. }
    rewrite table_set_table.
    split; [|rewrite <- Hhit; apply filter_split_length].
    intros d Hd. apply filter_rejects in Hd as [_ Hd]. exact Hd.
Qed.

Lemma delete_existing_witness :
  (exists first removed st',
     FlatFile.delete_route None Products one_product "p1" =
       (st', Responded 204 NoBody) /\
     FlatFile.rows Products one_product !! first = Some removed /\
     field_is "ProductID" "p1" removed = true /\
     (forall j y, (j < first)%nat ->
        FlatFile.rows Products one_product !! j = Some y ->
        field_is "ProductID" "p1" y = false) /\
     FlatFile.rows Products st' =
       splice first (FlatFile.rows Products one_product) /\
     (length (FlatFile.rows Products st') + 1 =
      length (FlatFile.rows Products one_product))%nat /\
     (FlatFile.get_route Products st').2 =
       Responded 200 (JsonBody (JArr (JObj <$> FlatFile.rows Products st'))) /\
     ((forall j y, j <> first ->
         FlatFile.rows Products one_product !! j = Some y ->
         field_is "ProductID" "p1" y = false) ->
      forall y, y ∈ FlatFile.rows Products st' ->
        field_is "ProductID" "p1" y = false)) /\
  (exists db',
     Relational.delete_route no_printer None Products one_row "p1" =
       (db', [], Responded 204 NoBody) /\
     Relational.table Products db' =
       List.filter
         (fun doc => negb (Relational.where_id no_printer "ProductID" "p1" doc))
         (Relational.table Products one_row) /\
     (Relational.get_route no_printer None Products db').2 =
       Responded 200 (JsonBody (JArr (Relational.table Products db'))) /\
     (forall doc, doc ∈ Relational.table Products db' ->
        Relational.where_id no_printer "ProductID" "p1" doc = false) /\
     (length (Relational.table Products db') +
      length (List.filter (Relational.where_id no_printer "ProductID" "p1")
                (Relational.table Products one_row))
      = length (Relational.table Products one_row))%nat).
Proof.
  destruct (delete_existing no_printer Products "p1" one_product one_row)
    as [Hflat Hrel].
  split.
  - apply Hflat. exists stored_widget. split; [|vm_compute; reflexivity].
    apply list_elem_of_further, list_elem_of_here.
  - apply Hrel. exists (JObj stored_widget). split; [|vm_compute; reflexivity].
    apply list_elem_of_further, list_elem_of_here.
Defined.

Example delete_one_sample :
  FlatFile.delete_route None Products one_product "p1" =
    (FlatFile.State [stored_gizmo] [] [FlatFile.Snapshot [stored_gizmo] []]
       false,
     Responded 204 NoBody).
Proof. vm_compute. reflexivity. Qed.

(** With two records under one identifier, the flat-file deployment still
    lists one of them after the deletion, and the relational deployment
    removes two rows: neither removes exactly one record and leaves none. *)
Lemma delete_with_twins :
  ~ (forall (c : collection) (st : FlatFile.state) (id : string),
       (exists r, r ∈ FlatFile.rows c st /\ field_is (id_field c) id r = true) ->
       forall y, y ∈ FlatFile.rows c (FlatFile.delete_route None c st id).1 ->
         field_is (id_field c) id y = false) /\
  ~ (forall (c : collection) (db : Relational.database) (id : string),
       (exists doc, doc ∈ Relational.table c db /\
          Relational.where_id no_printer (id_field c) id doc = true) ->
       (length (Relational.table c
                  (Relational.delete_route no_printer None c db id).1.1) + 1
        = length (Relational.table c db))%nat).
Proof.
  split.
  - intros Hclaim.
    assert (Hgadget : field_is "ProductID" "p1" stored_gadget = false).
    { apply (Hclaim Products twin_products "p1").
      - exists stored_widget. split; [apply list_elem_of_here|].
        vm_compute. reflexivity.
      - apply list_elem_of_further, list_elem_of_here. }
    vm_compute in Hgadget. discriminate.
  - intros Hclaim.
    assert (Hsize : (length (Relational.table Products
                       (Relational.delete_route no_printer None Products
                          twin_rows "p1").1.1) + 1
                     = length (Relational.table Products twin_rows))%nat).
    { apply (Hclaim Products twin_rows "p1").
      exists (JObj stored_widget). split; [apply list_elem_of_here|].
      vm_compute. reflexivity. }
    vm_compute in Hsize. discriminate.
Qed.

(** ** Update in the relational deployment *)

Section RelationalUpdate.

Variable jsonb_out : json -> string.

(** [jsonb_set] on an object replaces the one field and keeps the others. *)
Lemma jsonb_set_fields (fields : record) (key : string) (new : json) :
  exists result : record,
    Relational.jsonb_set (JObj fields) key new = JObj result /\
    result !! key = Some new /\
    (forall k, k <> key -> result !! k = fields !! k).
Proof.
  exists (<[key := new]> fields). split; [reflexivity|].
  split; [apply lookup_insert_eq|].
  intros k Hk. apply lookup_insert_ne. congruence.
Qed.

(** What [PUT] does with a selected row, in general: the body becomes the
    value of the identifier field, the other fields of the row stay. *)
Lemma put_route_selected (c : collection) (db : Relational.database)
    (id : string) (req_body : record) (doc : json) (rest : list json) :
  List.filter (Relational.where_id jsonb_out (id_field c) id)
    (Relational.table c db) = doc :: rest ->
  exists fields : record,
    doc = JObj fields /\
    (Relational.put_route jsonb_out None c db id req_body).2 =
      Responded 200 (JsonBody (JObj (<[id_field c := JObj req_body]> fields))).
Proof.
  intros Hsel.
  assert (Hdoc : Relational.where_id jsonb_out (id_field c) id doc = true).
  { assert (Hin : In doc (doc :: rest)) by (left; reflexivity).
    rewrite <- Hsel in Hin. apply filter_In in Hin as [_ Hin]. exact Hin. }
  destruct doc as [| | | | |fields]; try discriminate Hdoc.
  exists fields. split; [reflexivity|].
  unfold Relational.put_route, Relational.pool_query, Relational.execute.
  rewrite Hsel. reflexivity.
Qed.

(** C1 at a stored record [{"ProductID":"p1","name":"Widget","price":9.99}]
    and the body [{"price":5}]: the statement stores the whole body under
    [ProductID] and leaves the other fields as they were, so the answer is not
    the merge of the body into the record with [ProductID] set to [p1]; the
    price is still 9.99 and the identifier is no longer a string. *)
Theorem put_nests_body_sample :
  let stored : record := <["ProductID" := JObj new_price]> stored_widget in
  Relational.put_route jsonb_out None Products one_row "p1" new_price =
    (Relational.Database [JObj stored_gizmo; JObj stored] [], [],
     Responded 200 (JsonBody (JObj stored))) /\
  stored !! "price" = Some (JNum (999 # 100)) /\
  stored !! "ProductID" = Some (JObj new_price) /\
  stored <> <["ProductID" := JStr "p1"]> (spread stored_widget new_price).
Proof.
  intros stored. split; [vm_compute; reflexivity|].
  split; [vm_compute; reflexivity|]. split; [vm_compute; reflexivity|].
  intros Heq. apply (f_equal (fun m : record => m !! "price")) in Heq.
  vm_compute in Heq. discriminate.
Qed.

End RelationalUpdate.

(** ** Failure of the persistence call *)

(** C2, as the code has it: in the relational deployment every route catches
    the error of its query, prints it on the server and answers 500 with a
    fixed message that does not contain it.
    The routes of the flat-file deployment have no handler for exceptions: an
    error of the file write leaves the route as an exception (the HTTP
    framework is what answers then); [PUT] and [DELETE] for an identifier
    that is not stored answer 404 before any write, and [GET] makes no
    persistence call. *)
Theorem persistence_failure (jsonb_out : json -> string) (w : world)
    (c : collection) (id : string) (req_body : record) (err : string)
    (st : FlatFile.state) (db : Relational.database) :
  Relational.get_route jsonb_out (Some err) c db =
    (db, [err], Responded 500 (JsonBody (message (Relational.fetch_error c)))) /\
  Relational.post_route jsonb_out w (Some err) c db req_body =
    (db, [err], Responded 500 (JsonBody (message (Relational.create_error c)))) /\
  Relational.put_route jsonb_out (Some err) c db id req_body =
    (db, [err], Responded 500 (JsonBody (message (Relational.update_error c)))) /\
  Relational.delete_route jsonb_out (Some err) c db id =
    (db, [err], Responded 500 (JsonBody (message (Relational.delete_error c)))) /\
  (FlatFile.post_route w (Some err) c st req_body).2 = Threw err /\
  (FlatFile.put_route (Some err) c st id req_body).2 =
    match findIndex (field_is (id_field c) id) (FlatFile.rows c st) with
    | Some _ => Threw err
    | None => Responded 404 (JsonBody (message (not_found c)))
    end /\
  (FlatFile.delete_route (Some err) c st id).2 =
    match findIndex (field_is (id_field c) id) (FlatFile.rows c st) with
    | Some _ => Threw err
    | None => Responded 404 (JsonBody (message (not_found c)))
    end /\
  FlatFile.get_route c st =
    (st, Responded 200 (JsonBody (JArr (JObj <$> FlatFile.rows c st)))).
Proof.
  repeat split; try reflexivity.
  - unfold FlatFile.put_route.
    destruct (findIndex _ (FlatFile.rows c st)); reflexivity.
  - unfold FlatFile.delete_route.
    destruct (findIndex _ (FlatFile.rows c st)); reflexivity.
Qed.

(** In the flat-file deployment a failing write is not turned into a 500
    response by the route. *)
Lemma flat_file_write_error_escapes :
  ~ (forall (w : world) (c : collection) (st : FlatFile.state)
       (req_body : record) (err : string),
       exists msg,
         (FlatFile.post_route w (Some err) c st req_body).2 =
           Responded 500 (JsonBody (message msg))).
Proof.
  intros Hclaim.
  destruct (Hclaim sample_world Products empty_state widget "EIO") as [msg Hmsg].
  vm_compute in Hmsg. discriminate.
Qed.

Example relational_insert_fails_sample :
  Relational.post_route no_printer sample_world (Some "ECONNREFUSED") Products
    empty_database widget =
    (empty_database, ["ECONNREFUSED"],
     Responded 500 (JsonBody (message "Error creating product"))).
Proof. reflexivity. Qed.

(** ** Upload *)

(** C9, as the code has it: a request to [POST /upload] that carries no file
    at all is answered with status 400 and the body
    [{"message":"No file uploaded"}].  A request that carries files, none of
    them under the field name [image], does not reach the handler: the upload
    middleware fails on the first file with the error [Unexpected field], and
    that error leaves the route.  In both cases the bucket holds the objects
    it held before, whatever the storage would have answered. *)
Theorem upload_without_file (w : world) (reply : Upload.s3_reply)
    (parts : list (string * Upload.file_part)) (b : Upload.bucket) :
  Forall (fun part => part.1 <> "image") parts ->
  Upload.upload_route w reply parts b =
    (b, [],
     match parts with
     | [] => Responded 400 (JsonBody (JObj {[ "message" := JStr "No file uploaded" ]}))
     | _ :: _ => Threw "Unexpected field"
     end).
Proof.
  intros Hnone. destruct Hnone as [|[fieldname file] rest Hfield _].
  - reflexivity.
  - unfold Upload.upload_route, Upload.upload_single. cbn [Upload.receive].
    apply String.eqb_neq in Hfield. cbn [fst] in Hfield. rewrite Hfield.
    reflexivity.
Qed.

Lemma upload_without_file_witness :
  Upload.upload_route sample_world (Upload.S3Stored "https://bucket.example/x")
    [("photo", photo)] ∅ =
    (∅, [], Threw "Unexpected field").
Proof.
  apply (upload_without_file sample_world
           (Upload.S3Stored "https://bucket.example/x") [("photo", photo)] ∅).
  repeat constructor. discriminate.
Defined.

(** A file under another field name is a request without a file under
    [image], and it is not answered with status 400. *)
Lemma upload_under_other_field :
  ~ (forall (w : world) (reply : Upload.s3_reply)
       (parts : list (string * Upload.file_part)) (b : Upload.bucket),
       Forall (fun part => part.1 <> "image") parts ->
       (Upload.upload_route w reply parts b).2 =
         Responded 400 (JsonBody (message "No file uploaded"))).
Proof.
  intros Hclaim.
  assert (Hphoto : (Upload.upload_route sample_world
                      (Upload.S3Stored "https://bucket.example/x")
                      [("photo", photo)] ∅).2 =
                   Responded 400 (JsonBody (message "No file uploaded"))).
  { apply Hclaim. repeat constructor. discriminate. }
  vm_compute in Hphoto. discriminate.
Qed.

(** With a file, the object is stored under its key and the URL is returned. *)
Example upload_photo_sample :
  Upload.upload_route sample_world
    (Upload.S3Stored "https://bucket.example/uploads/1700000000000_cat.png")
    [("image", photo)] ∅ =
    ({[ "uploads/1700000000000_cat.png" :=
          Upload.S3Object "uploads/1700000000000_cat.png" "public-read" "image"
            "PNG" ]},
     ["fileUrl : https://bucket.example/uploads/1700000000000_cat.png"],
     Responded 200 (JsonBody (JObj
       {[ "imageUrl" :=
            JStr "https://bucket.example/uploads/1700000000000_cat.png" ]}))).
Proof. vm_compute. reflexivity. Qed.

(** A second file part makes the middleware fail and remove the object it had
    stored for the first. *)
Example upload_two_files_sample :
  Upload.upload_route sample_world
    (Upload.S3Stored "https://bucket.example/uploads/1700000000000_cat.png")
    [("image", photo); ("image", photo)] ∅ =
    (∅, [], Threw "Unexpected field").
Proof. vm_compute. reflexivity. Qed.

(** ** What an identifier and a storage key determine *)

Section Names.

Lemma append_same_length_inj (s s' t t' : string) :
  String.length s = String.length s' ->
  s +:+ t = s' +:+ t' -> s = s' /\ t = t'.
Proof.
  revert s'. induction s as [|a s IH]; intros [|a' s'] Hlen Heq;
    simpl in Hlen; try discriminate.
  - split; [reflexivity | exact Heq].
  - simpl in Heq. injection Heq as -> Heq.
    destruct (IH s') as [-> ->]; [lia | exact Heq | split; reflexivity].
Qed.

(** Digits followed by an underscore can be read back in one way only. *)
Lemma digits_then_underscore_inj (s s' t t' : string) :
  all_digits s = true -> all_digits s' = true ->
  s +:+ "_" +:+ t = s' +:+ "_" +:+ t' -> s = s' /\ t = t'.
Proof.
  revert s'. induction s as [|a s IH]; intros [|a' s'] Hs Hs' Heq;
    cbn in Heq, Hs, Hs'.
  - injection Heq as Heq. split; [reflexivity | exact Heq].
  - injection Heq as Ha _. rewrite <- Ha in Hs'. discriminate.
  - injection Heq as Ha _. rewrite Ha in Hs. discriminate.
  - injection Heq as -> Heq.
    apply andb_true_iff in Hs as [_ Hs]. apply andb_true_iff in Hs' as [_ Hs'].
    destruct (IH s' Hs Hs' Heq) as [-> ->]. split; reflexivity.
Qed.

(** Two numbers that print the same are the same number. *)
Lemma Number_toString_inj (z z' : Z) :
  Number_toString z = Number_toString z' -> z = z'.
Proof.
  unfold Number_toString. intros Heq.
  assert (Hnorm : forall n, Z.to_int n <> Decimal.Pos Decimal.Nil /\
                            Z.to_int n <> Decimal.Neg Decimal.Nil).
  { intros [|p|p]; simpl; split; try discriminate;
      intros H; injection H as H;
      exact (DecimalPos.Unsigned.to_uint_nonnil p H). }
  apply DecimalZ.to_int_inj.
  assert (Hread : NilZero.int_of_string (NilZero.string_of_int (Z.to_int z)) =
                  NilZero.int_of_string (NilZero.string_of_int (Z.to_int z')))
    by (rewrite Heq; reflexivity).
  destruct (Hnorm z) as [Hp Hn]. destruct (Hnorm z') as [Hp' Hn'].
  rewrite !NilZero.isi in Hread by assumption.
  injection Hread as Hread. exact Hread.
Qed.

End Names.

(** X1: two identifiers generated with the same prefix at clock readings
    that print with the same number of digits are equal only when the clock
    readings are equal and the draws are equal. *)
Theorem generateId_injective (w w' : world) (prefix : string) :
  String.length (Number_toString (Date_now w)) =
    String.length (Number_toString (Date_now w')) ->
  generateId w prefix = generateId w' prefix ->
  Date_now w = Date_now w' /\ random_draw w = random_draw w'.
Proof.
  intros Hlen Heq. unfold generateId in Heq.
  destruct (append_same_length_inj prefix prefix _ _ eq_refl Heq) as [_ Hrest].
  destruct (append_same_length_inj _ _ _ _ Hlen Hrest) as [Hnow Hdraw].
  split; apply Number_toString_inj; assumption.
Qed.

Lemma generateId_injective_witness :
  Date_now sample_world = Date_now (World 1700000000000 (33331 # 100000)) /\
  random_draw sample_world = random_draw (World 1700000000000 (33331 # 100000)).
Proof.
  apply (generateId_injective sample_world
           (World 1700000000000 (33331 # 100000)) "prod_");
    vm_compute; reflexivity.
Defined.

(** X2: for clock readings that are not negative, the storage key of an
    upload determines the clock reading and the original file name: two
    uploads get the same key only when they happen in the same millisecond
    under the same file name. *)
Theorem upload_key_injective (w w' : world) (file file' : Upload.file_part) :
  (0 <= Date_now w)%Z -> (0 <= Date_now w')%Z ->
  Upload.key w file = Upload.key w' file' ->
  Date_now w = Date_now w' /\
  Upload.originalname file = Upload.originalname file'.
Proof.
  intros Hw Hw' Heq. unfold Upload.key in Heq.
  destruct (append_same_length_inj "uploads/" "uploads/" _ _ eq_refl Heq)
    as [_ Hrest].
  destruct (Number_toString_digits _ Hw) as [_ Hd].
  destruct (Number_toString_digits _ Hw') as [_ Hd'].
  destruct (digits_then_underscore_inj _ _ _ _ Hd Hd' Hrest) as [Hnow Hname].
  split; [apply Number_toString_inj, Hnow | exact Hname].
Qed.

Lemma upload_key_injective_witness :
  Date_now sample_world = Date_now (World 1700000000000 (1 # 2)) /\
  Upload.originalname photo =
    Upload.originalname (Upload.FilePart "cat.png" "another picture").
Proof.
  apply (upload_key_injective sample_world (World 1700000000000 (1 # 2)) photo
           (Upload.FilePart "cat.png" "another picture"));
    [simpl; lia | simpl; lia | reflexivity].
Defined.

(** ** The flat-file server over a sequence of requests *)

Section Serving.

Import FlatFile Router.

Implicit Types (c : collection) (st : state) (id : string) (a : arrival).

(** A write that succeeds records the arrays as they are. *)
Lemma file_current_save_then st respond :
  file_current (save_then None st respond).1.
Proof. reflexivity. Qed.

Lemma file_current_dispatch a st :
  fault a = None -> file_current st -> file_current (dispatch a st).1.
Proof.
  intros Hok Hst. unfold dispatch.
  destruct (asked a) as [c | c req_body | c id req_body | c id]; rewrite ?Hok.
  - exact Hst.
  - apply file_current_save_then.
  - unfold put_route. destruct (findIndex _ (rows c st));
      [apply file_current_save_then | exact Hst].
  - unfold delete_route. destruct (findIndex _ (rows c st));
      [apply file_current_save_then | exact Hst].
Qed.

Lemma rows_other c c' l st : c <> c' -> rows c' (set_rows c l st) = rows c' st.
Proof. destruct c, c'; intros Hne; congruence || reflexivity. Qed.



End Serving.

(** X4: when the file is current and no write fails, it is current again
    after any sequence of requests: the content written last is the content
    of the two arrays, so a server restarted from that file starts with the
    collections the running server has. *)
Theorem serve_keeps_file_current (arrivals : list Router.arrival)
    (st : FlatFile.state) :
  Router.file_current st ->
  Forall (fun a => Router.fault a = None) arrivals ->
  Router.file_current (Router.serve arrivals st) /\
  forall data,
    head (FlatFile.dataFile (Router.serve arrivals st)) = Some data ->
    FlatFile.productsData (FlatFile.load (Some data)) =
      FlatFile.productsData (Router.serve arrivals st) /\
    FlatFile.categoriesData (FlatFile.load (Some data)) =
      FlatFile.categoriesData (Router.serve arrivals st).
Proof.
  intros Hst Hok.
  assert (Hcur : Router.file_current (Router.serve arrivals st)).
  { revert st Hst. induction Hok as [|a rest Ha _ IH]; intros st Hst; simpl.
    - exact Hst.
    - apply IH, file_current_dispatch; assumption. }
  split; [exact Hcur|].
  intros data Hdata. unfold Router.file_current in Hcur.
  destruct (FlatFile.dataFile (Router.serve arrivals st)) as [|d rest];
    [discriminate|].
  injection Hdata as ->. rewrite Hcur. split; reflexivity.
Qed.

Lemma serve_keeps_file_current_witness :
  Router.file_current (Router.serve Router.busy_morning empty_state) /\
  forall data,
    head (FlatFile.dataFile (Router.serve Router.busy_morning empty_state)) =
      Some data ->
    FlatFile.productsData (FlatFile.load (Some data)) =
      FlatFile.productsData (Router.serve Router.busy_morning empty_state) /\
    FlatFile.categoriesData (FlatFile.load (Some data)) =
      FlatFile.categoriesData (Router.serve Router.busy_morning empty_state).
Proof.
  apply (serve_keeps_file_current Router.busy_morning empty_state).
  - exact I.
  - repeat constructor.
Defined.

Example busy_morning_sample :
  Router.serve Router.busy_morning empty_state =
    FlatFile.State []
      [ {[ "name" := JStr "Tools"; "CategoryID" := JStr "cat_17000000005005000" ]} ]
      [ FlatFile.Snapshot []
          [ {[ "name" := JStr "Tools";
               "CategoryID" := JStr "cat_17000000005005000" ]} ];
        FlatFile.Snapshot
          [ {[ "name" := JStr "Widget"; "price" := JNum 5;
               "ProductID" := JStr "prod_17000000000003333" ]} ]
          [ {[ "name" := JStr "Tools";
               "CategoryID" := JStr "cat_17000000005005000" ]} ];
        FlatFile.Snapshot
          [ {[ "name" := JStr "Widget";
               "ProductID" := JStr "prod_17000000000003333" ]} ]
          [ {[ "name" := JStr "Tools";
               "CategoryID" := JStr "cat_17000000005005000" ]} ];
        FlatFile.Snapshot
          [ {[ "name" := JStr "Widget";
               "ProductID" := JStr "prod_17000000000003333" ]} ]
          [] ]
      false.
Proof. vm_compute. reflexivity. Qed.



(** ** Requests leave the other collection alone *)

(** X6: a request addressed to one collection never changes the other one,
    whatever the request is and whether its persistence call fails or not, in
    the flat-file arrays and in the tables of the database. *)
Theorem other_collection_untouched (jsonb_out : json -> string)
    (a : Router.arrival) (other : collection)
    (st : FlatFile.state) (db : Relational.database) :
  Router.target (Router.asked a) <> other ->
  FlatFile.rows other (Router.dispatch a st).1 = FlatFile.rows other st /\
  Relational.table other (Router.dispatch_sql jsonb_out a db).1.1 =
    Relational.table other db.
Proof.
  intros Hother. unfold Router.dispatch, Router.dispatch_sql.
  destruct a as [w [err|] [c | c req_body | c id req_body | c id]];
    simpl in Hother |- *;
    unfold FlatFile.put_route, FlatFile.delete_route,
      Relational.put_route, Relational.delete_route, Relational.get_route,
      Relational.post_route, Relational.pool_query, Relational.execute;
    repeat match goal with
    | |- context [findIndex ?p ?l] => destruct (findIndex p l)
    | |- context [List.filter ?p ?l] => destruct (List.filter p l)
    end;
    destruct c, other; try congruence; split; reflexivity.
Qed.

Lemma other_collection_untouched_witness :
  FlatFile.rows Categories
    (Router.dispatch
       (Router.Arrival sample_world None (Router.Delete Products "p1"))
       one_product).1 = FlatFile.rows Categories one_product /\
  Relational.table Categories
    (Router.dispatch_sql no_printer
       (Router.Arrival sample_world None (Router.Delete Products "p1"))
       one_row).1.1 = Relational.table Categories one_row.
Proof.
  apply (other_collection_untouched no_printer
           (Router.Arrival sample_world None (Router.Delete Products "p1"))
           Categories one_product one_row).
  discriminate.
Defined.

(** ** Creation followed by deletion *)

Section RoundTrips.

Context {A : Type}.
Implicit Types (p : A -> bool) (l : list A).

Lemma findIndex_app_last p l y :
  (forall x, x ∈ l -> p x = false) -> p y = true ->
  findIndex p (l ++ [y]) = Some (length l).
Proof.
  intros Hnone Hy. apply (findIndex_first p _ _ y).
  - rewrite lookup_app_r by lia. rewrite Nat.sub_diag. reflexivity.
  - exact Hy.
  - intros j x Hj Hx. rewrite lookup_app_l in Hx by exact Hj.
    apply Hnone, list_elem_of_lookup. eauto.
Qed.

Lemma splice_app_last l y : splice (length l) (l ++ [y]) = l.
Proof.
  unfold splice. rewrite take_app_length.
  rewrite drop_ge by (rewrite length_app; simpl; lia). apply app_nil_r.
Qed.

End RoundTrips.

(** The identifier field of a created record is the generated identifier. *)
Lemma field_is_created (field id : string) (req_body : record) :
  field_is field id (<[field := JStr id]> req_body) = true.
Proof.
  unfold field_is. rewrite lookup_insert_eq. apply String.eqb_refl.
Qed.

Lemma state_eta (st : FlatFile.state) (c : collection) :
  FlatFile.set_rows c (FlatFile.rows c st) st = st.
Proof. destruct st, c; reflexivity. Qed.

Lemma set_rows_twice (c : collection) (l l' : list record) (st : FlatFile.state) :
  FlatFile.set_rows c l' (FlatFile.set_rows c l st) = FlatFile.set_rows c l' st.
Proof. destruct c; reflexivity. Qed.

(** X7: in the flat-file deployment, when no stored record carries the
    identifier a creation generates, deleting the created record by the
    identifier the creation returned answers 204 and gives back the two
    arrays as they were before the creation, in the same order. *)
Theorem create_then_delete (w : world) (c : collection) (st : FlatFile.state)
    (req_body : record) :
  (forall r, r ∈ FlatFile.rows c st ->
     field_is (id_field c) (generateId w (id_prefix c)) r = false) ->
  let created := (FlatFile.post_route w None c st req_body).1 in
  let deleted :=
    FlatFile.delete_route None c created (generateId w (id_prefix c)) in
  deleted.2 = Responded 204 NoBody /\
  FlatFile.productsData deleted.1 = FlatFile.productsData st /\
  FlatFile.categoriesData deleted.1 = FlatFile.categoriesData st.
Proof.
  intros Hfresh created deleted.
  set (id := generateId w (id_prefix c)) in *.
  set (new := <[id_field c := JStr id]> req_body : record).
  assert (Hrows : FlatFile.rows c created = (FlatFile.rows c st ++ [new])%list).
  { unfold created, FlatFile.post_route. rewrite rows_save_then.
    apply rows_set_rows. }
  assert (Hfind : findIndex (field_is (id_field c) id) (FlatFile.rows c created)
                  = Some (length (FlatFile.rows c st))).
  { rewrite Hrows. apply findIndex_app_last; [exact Hfresh|].
    apply field_is_created. }
  unfold deleted. rewrite (delete_route_found _ _ _ _ _ Hfind).
  rewrite Hrows, splice_app_last.
  split; [reflexivity|].
  unfold created. destruct c, st; split; reflexivity.
Qed.

Lemma create_then_delete_witness :
  let created :=
    (FlatFile.post_route sample_world None Products one_product widget).1 in
  let deleted :=
    FlatFile.delete_route None Products created
      (generateId sample_world "prod_") in
  deleted.2 = Responded 204 NoBody /\
  FlatFile.productsData deleted.1 = FlatFile.productsData one_product /\
  FlatFile.categoriesData deleted.1 = FlatFile.categoriesData one_product.
Proof.
  apply (create_then_delete sample_world Products one_product widget).
  intros r Hr.
  repeat (apply elem_of_cons in Hr as [-> | Hr]; [vm_compute; reflexivity|]).
  inversion Hr.
Defined.

(** X8: in the relational deployment, when no row carries the identifier a
    creation generates, deleting by that identifier answers 204 and gives
    back the database as it was before the creation. *)
Theorem create_then_delete_sql (jsonb_out : json -> string) (w : world)
    (c : collection) (db : Relational.database) (req_body : record) :
  (forall doc, doc ∈ Relational.table c db ->
     Relational.where_id jsonb_out (id_field c)
       (generateId w (id_prefix c)) doc = false) ->
  let created := (Relational.post_route jsonb_out w None c db req_body).1.1 in
  Relational.delete_route jsonb_out None c created
    (generateId w (id_prefix c)) = (db, [], Responded 204 NoBody).
Proof.
  intros Hfresh created.
  set (id := generateId w (id_prefix c)) in *.
  set (new := <[id_field c := JStr id]> req_body : record).
  assert (Hnew : Relational.where_id jsonb_out (id_field c) id (JObj new) = true).
  { apply where_id_string. apply lookup_insert_eq. }
  assert (Htable : Relational.table c created =
                     (Relational.table c db ++ [JObj new])%list).
  { unfold created, Relational.post_route, Relational.pool_query,
      Relational.execute. apply table_set_table. }
  unfold Relational.delete_route, Relational.pool_query, Relational.execute.
  rewrite Htable, !List.filter_app. simpl. rewrite Hnew. simpl.
  rewrite (filter_none _ _ Hfresh), (filter_all _ _ Hfresh), app_nil_r. simpl.
  unfold created, Relational.post_route, Relational.pool_query,
    Relational.execute.
  destruct c, db; reflexivity.
Qed.

Lemma create_then_delete_sql_witness :
  let created :=
    (Relational.post_route no_printer sample_world None Products one_row
       widget).1.1 in
  Relational.delete_route no_printer None Products created
    (generateId sample_world "prod_") = (one_row, [], Responded 204 NoBody).
Proof.
  apply (create_then_delete_sql no_printer sample_world Products one_row widget).
  intros doc Hdoc.
  repeat (apply elem_of_cons in Hdoc as [-> | Hdoc]; [vm_compute; reflexivity|]).
  inversion Hdoc.
Defined.

(** ** Repeated and identifier-changing updates in the flat-file deployment *)

Section FlatFileUpdates.

Import FlatFile.

Implicit Types (c : collection) (st : state) (id field : string)
  (existing req_body : record).

Lemma spread_again existing req_body :
  spread (spread existing req_body) req_body = spread existing req_body.
Proof.
  unfold spread. rewrite (assoc_L (∪)). rewrite (idemp_L (∪)). reflexivity.
Qed.

(** Whether the merged record carries [id] is decided by the body when the
    body names the field, by the stored record otherwise. *)
Lemma field_is_spread field id existing req_body :
  field_is field id (spread existing req_body) =
    match req_body !! field with
    | Some (JStr s) => String.eqb s id
    | Some _ => false
    | None => field_is field id existing
    end.
Proof.
  unfold field_is, spread.
  destruct (req_body !! field) as [v|] eqn:Hb.
  - rewrite (lookup_union_Some_l _ _ _ _ Hb). reflexivity.
  - rewrite (lookup_union_r _ _ _ Hb). reflexivity.
Qed.

Lemma put_route_missing fault c st id req_body :
  (forall r, r ∈ rows c st -> field_is (id_field c) id r = false) ->
  put_route fault c st id req_body =
    (st, Responded 404 (JsonBody (message (not_found c)))).
Proof.
  intros Hnone. unfold put_route.
  rewrite (findIndex_none_of _ _ Hnone). reflexivity.
Qed.

Lemma delete_route_missing fault c st id :
  (forall r, r ∈ rows c st -> field_is (id_field c) id r = false) ->
  delete_route fault c st id =
    (st, Responded 404 (JsonBody (message (not_found c)))).
Proof.
  intros Hnone. unfold delete_route.
  rewrite (findIndex_none_of _ _ Hnone). reflexivity.
Qed.

End FlatFileUpdates.

(** X9: in the flat-file deployment, an update whose body does not name the
    identifier field, or names it with the identifier of the path, can be
    repeated: the second identical request finds the record again, answers
    with the same record as the first, and leaves both arrays as the first
    left them. *)
Theorem put_twice_same (c : collection) (st : FlatFile.state) (id : string)
    (req_body : record) :
  (exists r, r ∈ FlatFile.rows c st /\ field_is (id_field c) id r = true) ->
  req_body !! id_field c = None \/ req_body !! id_field c = Some (JStr id) ->
  let once := FlatFile.put_route None c st id req_body in
  let twice := FlatFile.put_route None c once.1 id req_body in
  (exists merged, once.2 = Responded 200 (JsonBody (JObj merged)) /\
                  twice.2 = Responded 200 (JsonBody (JObj merged))) /\
  FlatFile.productsData twice.1 = FlatFile.productsData once.1 /\
  FlatFile.categoriesData twice.1 = FlatFile.categoriesData once.1.
Proof.
  intros (r & Hr & Hid) Hbody once twice.
  destruct (findIndex_some_of _ _ _ Hr Hid) as [index Hfind].
  destruct (findIndex_Some _ _ _ Hfind) as (existing & Hex & Hmatch & Hfirst).
  pose proof (lookup_lt_Some _ _ _ Hex) as Hlen.
  set (merged := spread existing req_body).
  assert (Honce : once =
            FlatFile.save_then None
              (FlatFile.set_rows c (<[index := merged]> (FlatFile.rows c st)) st)
              (Responded 200 (JsonBody (JObj merged))))
    by (apply put_route_found; assumption).
  assert (Hrows : FlatFile.rows c once.1 = <[index := merged]> (FlatFile.rows c st)).
  { rewrite Honce, rows_save_then. apply rows_set_rows. }
  assert (Hkeeps : field_is (id_field c) id merged = true).
  { unfold merged. rewrite field_is_spread.
    destruct Hbody as [-> | ->]; [exact Hmatch | apply String.eqb_refl]. }
  assert (Hat : FlatFile.rows c once.1 !! index = Some merged).
  { rewrite Hrows. apply list_lookup_insert_eq, Hlen. }
  assert (Hfind' : findIndex (field_is (id_field c) id) (FlatFile.rows c once.1)
                   = Some index).
  { apply (findIndex_first _ _ _ merged Hat Hkeeps).
    intros j y Hj Hy. rewrite Hrows, list_lookup_insert_ne in Hy by lia.
    exact (Hfirst j y Hj Hy). }
  assert (Htwice : twice =
            FlatFile.save_then None
              (FlatFile.set_rows c
                 (<[index := spread merged req_body]> (FlatFile.rows c once.1))
                 once.1)
              (Responded 200 (JsonBody (JObj (spread merged req_body)))))
    by (apply put_route_found; assumption).
  assert (Hsame : spread merged req_body = merged) by apply spread_again.
  rewrite Hsame in Htwice.
  rewrite Hrows, list_insert_insert_eq, <- Hrows, state_eta in Htwice.
  split.
  - exists merged. rewrite Htwice, Honce. split; reflexivity.
  - rewrite Htwice. split; reflexivity.
Qed.

Lemma put_twice_same_witness :
  let once := FlatFile.put_route None Products one_product "p1" new_price in
  let twice := FlatFile.put_route None Products once.1 "p1" new_price in
  (exists merged, once.2 = Responded 200 (JsonBody (JObj merged)) /\
                  twice.2 = Responded 200 (JsonBody (JObj merged))) /\
  FlatFile.productsData twice.1 = FlatFile.productsData once.1 /\
  FlatFile.categoriesData twice.1 = FlatFile.categoriesData once.1.
Proof.
  apply (put_twice_same Products one_product "p1" new_price).
  - exists stored_widget. split; [|vm_compute; reflexivity].
    apply list_elem_of_further, list_elem_of_here.
  - left. reflexivity.
Defined.

(** X10: in the flat-file deployment the identifier of a record is not
    protected.  When the only record under the identifier of the path is
    updated with a body that gives the identifier field another value, no
    record answers to the old identifier afterwards, so [PUT] and [DELETE]
    for it answer 404, and when the new value is a string the record is
    found under that string. *)
Theorem put_moves_identifier (fault : option string) (c : collection)
    (st : FlatFile.state) (id : string) (req_body later_body : record)
    (index : nat) (existing : record) (v : json) :
  FlatFile.rows c st !! index = Some existing ->
  field_is (id_field c) id existing = true ->
  (forall j y, j <> index -> FlatFile.rows c st !! j = Some y ->
     field_is (id_field c) id y = false) ->
  req_body !! id_field c = Some v ->
  v <> JStr id ->
  let after := (FlatFile.put_route None c st id req_body).1 in
  FlatFile.put_route fault c after id later_body =
    (after, Responded 404 (JsonBody (message (not_found c)))) /\
  FlatFile.delete_route fault c after id =
    (after, Responded 404 (JsonBody (message (not_found c)))) /\
  (forall id', v = JStr id' ->
     (FlatFile.delete_route None c after id').2 = Responded 204 NoBody).
Proof.
  intros Hex Hmatch Honly Hbody Hv after.
  pose proof (lookup_lt_Some _ _ _ Hex) as Hlen.
  assert (Hfind : findIndex (field_is (id_field c) id) (FlatFile.rows c st)
                  = Some index).
  { apply (findIndex_first _ _ _ existing Hex Hmatch).
    intros j y Hj. apply Honly. lia. }
  set (merged := spread existing req_body).
  assert (Hrows : FlatFile.rows c after = <[index := merged]> (FlatFile.rows c st)).
  { unfold after. rewrite (put_route_found _ _ _ _ _ _ _ Hfind Hex).
    rewrite rows_save_then. apply rows_set_rows. }
  assert (Hmerged : forall id', field_is (id_field c) id' merged =
                      match v with JStr s => String.eqb s id' | _ => false end).
  { intros id'. unfold merged. rewrite field_is_spread, Hbody.
    destruct v; reflexivity. }
  assert (Hgone : forall r, r ∈ FlatFile.rows c after ->
                    field_is (id_field c) id r = false).
  { intros r Hin. rewrite Hrows in Hin.
    apply list_elem_of_lookup in Hin as [j Hj].
    destruct (decide (j = index)) as [-> | Hne].
    - rewrite list_lookup_insert_eq in Hj by exact Hlen. injection Hj as <-.
      rewrite Hmerged. destruct v as [| | |s| |]; try reflexivity.
      apply String.eqb_neq. congruence.
    - rewrite list_lookup_insert_ne in Hj by congruence.
      exact (Honly j r Hne Hj). }
  split; [apply put_route_missing, Hgone|].
  split; [apply delete_route_missing, Hgone|].
  intros id' ->.
  assert (Hin : merged ∈ FlatFile.rows c after).
  { rewrite Hrows. apply list_elem_of_lookup. exists index.
    apply list_lookup_insert_eq, Hlen. }
  assert (Hnew : field_is (id_field c) id' merged = true)
    by (rewrite Hmerged; apply String.eqb_refl).
  destruct (findIndex_some_of _ _ _ Hin Hnew) as [k Hk].
  rewrite (delete_route_found _ _ _ _ _ Hk). reflexivity.
Qed.

Lemma put_moves_identifier_witness :
  let after :=
    (FlatFile.put_route None Products one_product "p1"
       {[ "ProductID" := JStr "p9" ]}).1 in
  FlatFile.put_route None Products after "p1" new_price =
    (after, Responded 404 (JsonBody (message "Product not found"))) /\
  FlatFile.delete_route None Products after "p1" =
    (after, Responded 404 (JsonBody (message "Product not found"))) /\
  (forall id', JStr "p9" = JStr id' ->
     (FlatFile.delete_route None Products after id').2 = Responded 204 NoBody).
Proof.
  apply (put_moves_identifier None Products one_product "p1"
           {[ "ProductID" := JStr "p9" ]} new_price 1 stored_widget (JStr "p9")).
  - reflexivity.
  - vm_compute. reflexivity.
  - intros [|[|j]] y Hj Hy; simpl in Hy;
      [injection Hy as <-; vm_compute; reflexivity | congruence | discriminate].
  - reflexivity.
  - discriminate.
Defined.

(** ** More on the relational deployment *)

Section RelationalMore.

Import Relational.

Variable jsonb_out : json -> string.

Implicit Types (c : collection) (db : database) (id : string).

(** When the condition selects no row, [PUT] and [DELETE] answer 404 and the
    database is unchanged. *)
Lemma sql_no_row_selected c db id req_body :
  (forall doc, doc ∈ table c db ->
     where_id jsonb_out (id_field c) id doc = false) ->
  put_route jsonb_out None c db id req_body =
    (db, [], Responded 404 (JsonBody (message (not_found c)))) /\
  delete_route jsonb_out None c db id =
    (db, [], Responded 404 (JsonBody (message (not_found c)))).
Proof.
  intros Hnone.
  unfold put_route, delete_route, pool_query, execute.
  rewrite (filter_none _ _ Hnone), (filter_all _ _ Hnone).
  cbn [fmap list_fmap]. rewrite app_nil_r, set_table_same.
  split; reflexivity.
Qed.

(** The table after an update, whatever the answer is: the rows that were
    not selected, then the selected rows with the body under the identifier
    field. *)
Lemma put_route_table c db id req_body :
  table c (put_route jsonb_out None c db id req_body).1.1 =
    (List.filter (fun doc => negb (where_id jsonb_out (id_field c) id doc))
       (table c db) ++
     ((fun doc => jsonb_set doc (id_field c) (JObj req_body)) <$>
      List.filter (where_id jsonb_out (id_field c) id) (table c db)))%list.
Proof.
  unfold put_route, pool_query, execute.
  destruct (_ <$> List.filter _ (table c db)) eqn:Hsel; cbn [fst];
    rewrite table_set_table, ?Hsel; reflexivity.
Qed.

(** A selected row is an object. *)
Lemma where_id_object key id doc :
  where_id jsonb_out key id doc = true -> exists fields, doc = JObj fields.
Proof. destruct doc; try discriminate. eauto. Qed.

End RelationalMore.

(** X11: in the relational deployment an update makes its rows unreachable
    under the identifier.  Unless the identifier of the path is the text the
    database prints for the body, after [PUT] no row of the table is selected
    by the identifier any more: the same [PUT] again, or [DELETE], answers
    404 and changes nothing, while the table still has as many rows as
    before the update. *)
Theorem put_hides_row (jsonb_out : json -> string) (c : collection)
    (db : Relational.database) (id : string) (req_body later_body : record) :
  jsonb_out (JObj req_body) <> id ->
  let after := (Relational.put_route jsonb_out None c db id req_body).1.1 in
  (forall doc, doc ∈ Relational.table c after ->
     Relational.where_id jsonb_out (id_field c) id doc = false) /\
  Relational.put_route jsonb_out None c after id later_body =
    (after, [], Responded 404 (JsonBody (message (not_found c)))) /\
  Relational.delete_route jsonb_out None c after id =
    (after, [], Responded 404 (JsonBody (message (not_found c)))) /\
  length (Relational.table c after) = length (Relational.table c db).
Proof.
  intros Htext after.
  assert (Hgone : forall doc, doc ∈ Relational.table c after ->
                    Relational.where_id jsonb_out (id_field c) id doc = false).
  { intros doc Hdoc. unfold after in Hdoc. rewrite put_route_table in Hdoc.
    apply elem_of_app in Hdoc as [Hdoc | Hdoc].
    - apply filter_rejects in Hdoc as [_ Hdoc]. exact Hdoc.
    - apply list_elem_of_fmap in Hdoc as (old & -> & Hold).
      apply list_elem_of_In, filter_In in Hold as [_ Hold].
      destruct (where_id_object _ _ _ _ Hold) as [fields ->].
      unfold Relational.where_id, Relational.field_text, Relational.jsonb_set.
      rewrite lookup_insert_eq. simpl. apply String.eqb_neq, Htext. }
  split; [exact Hgone|].
  destruct (sql_no_row_selected jsonb_out c after id later_body Hgone)
    as [Hput Hdelete].
  split; [exact Hput|]. split; [exact Hdelete|].
  unfold after. rewrite put_route_table, length_app, length_fmap.
  apply filter_split_length.
Qed.

Lemma put_hides_row_witness :
  let after :=
    (Relational.put_route no_printer None Products one_row "p1" new_price).1.1 in
  (forall doc, doc ∈ Relational.table Products after ->
     Relational.where_id no_printer "ProductID" "p1" doc = false) /\
  Relational.put_route no_printer None Products after "p1" new_price =
    (after, [], Responded 404 (JsonBody (message "Product not found"))) /\
  Relational.delete_route no_printer None Products after "p1" =
    (after, [], Responded 404 (JsonBody (message "Product not found"))) /\
  length (Relational.table Products after) =
    length (Relational.table Products one_row).
Proof.
  apply (put_hides_row no_printer Products one_row "p1" new_price new_price).
  discriminate.
Defined.

(** ** Creations at the same instant *)

(** X12: no route compares a generated identifier with the stored ones.  Two
    creations handled at the same clock reading with the same draw are both
    answered 201 with the same identifier, and both records are stored, one
    after the other, at the end of the collection; this holds in both
    deployments. *)
Theorem same_instant_same_identifier (jsonb_out : json -> string) (w : world)
    (c : collection) (st : FlatFile.state) (db : Relational.database)
    (body1 body2 : record) :
  let id := generateId w (id_prefix c) in
  let one : record := <[id_field c := JStr id]> body1 in
  let two : record := <[id_field c := JStr id]> body2 in
  let first := FlatFile.post_route w None c st body1 in
  let second := FlatFile.post_route w None c first.1 body2 in
  let first_sql := Relational.post_route jsonb_out w None c db body1 in
  let second_sql := Relational.post_route jsonb_out w None c first_sql.1.1 body2 in
  first.2 = Responded 201 (JsonBody (JObj one)) /\
  second.2 = Responded 201 (JsonBody (JObj two)) /\
  FlatFile.rows c second.1 = (FlatFile.rows c st ++ [one; two])%list /\
  field_is (id_field c) id one = true /\
  field_is (id_field c) id two = true /\
  first_sql.2 = Responded 201 (JsonBody (JObj one)) /\
  second_sql.2 = Responded 201 (JsonBody (JObj two)) /\
  Relational.table c second_sql.1.1 =
    (Relational.table c db ++ [JObj one; JObj two])%list /\
  Relational.where_id jsonb_out (id_field c) id (JObj one) = true /\
  Relational.where_id jsonb_out (id_field c) id (JObj two) = true.
Proof.
  intros id one two first second first_sql second_sql.
  split; [reflexivity|]. split; [reflexivity|].
  split.
  { unfold second, first, FlatFile.post_route.
    rewrite !rows_save_then, !rows_set_rows, <- app_assoc. reflexivity. }
  split; [apply field_is_created|]. split; [apply field_is_created|].
  split; [reflexivity|]. split; [reflexivity|].
  split.
  { unfold second_sql, first_sql, Relational.post_route, Relational.pool_query,
      Relational.execute. cbn [fst snd].
    rewrite !table_set_table, <- app_assoc. reflexivity. }
  split; apply where_id_string, lookup_insert_eq.
Qed.

(** ** Where the two deployments agree *)

Section Agreement.

Context {A B : Type}.
Implicit Types (q : A -> bool) (l : list A).

Lemma filter_fmap_ext (g : A -> B) (p : B -> bool) q l :
  (forall x, x ∈ l -> p (g x) = q x) ->
  List.filter p (g <$> l) = g <$> List.filter q l.
Proof.
  induction l as [|a l IH]; intros Hext; [reflexivity|].
  change (List.filter p (g <$> a :: l))
    with (if p (g a) then g a :: List.filter p (g <$> l)
          else List.filter p (g <$> l)).
  change (List.filter q (a :: l))
    with (if q a then a :: List.filter q l else List.filter q l).
  rewrite (Hext a) by apply list_elem_of_here.
  rewrite IH by (intros x Hx; apply Hext, list_elem_of_further, Hx).
  destruct (q a); reflexivity.
Qed.

(** When one element only satisfies [q], filtering it out is [splice] at the
    index [findIndex] returns. *)
Lemma filter_unique_splice q l i :
  findIndex q l = Some i ->
  (forall j k x y, l !! j = Some x -> l !! k = Some y ->
     q x = true -> q y = true -> j = k) ->
  List.filter (fun x => negb (q x)) l = splice i l /\
  exists x, List.filter q l = [x].
Proof.
  revert i. induction l as [|a l IH]; intros i Hfind Huniq; simpl in Hfind.
  - discriminate.
  - destruct (q a) eqn:Hqa.
    + injection Hfind as <-.
      assert (Hrest : forall x, x ∈ l -> q x = false).
      { intros x Hx. apply list_elem_of_lookup in Hx as [k Hk].
        destruct (q x) eqn:Hqx; [|reflexivity].
        pose proof (Huniq 0%nat (S k) a x eq_refl Hk Hqa Hqx). discriminate. }
      simpl. rewrite Hqa. simpl.
      rewrite (filter_all _ _ Hrest), (filter_none _ _ Hrest).
      split; [reflexivity | eauto].
    + destruct (findIndex q l) as [k|] eqn:Hk; simpl in Hfind; [|discriminate].
      injection Hfind as <-.
      destruct (IH k eq_refl) as [Hsplice [x Hx]].
      { intros j j' x y Hj Hj' Hqx Hqy.
        pose proof (Huniq (S j) (S j') x y Hj Hj' Hqx Hqy). lia. }
      simpl. rewrite Hqa. simpl. rewrite Hsplice, Hx.
      split; [reflexivity | eauto].
Qed.

End Agreement.

(** On records whose identifier field is a string, the condition of the
    statements is the comparison the flat-file routes make. *)
Lemma where_id_field_is (jsonb_out : json -> string) (key id : string)
    (r : record) :
  (exists s, r !! key = Some (JStr s)) ->
  Relational.where_id jsonb_out key id (JObj r) = field_is key id r.
Proof.
  intros [s Hs]. unfold Relational.where_id, Relational.field_text, field_is.
  rewrite Hs. reflexivity.
Qed.

Lemma collection_cases (c c' : collection) : c = c' \/ c <> c'.
Proof. destruct c, c'; (left; reflexivity) || (right; discriminate). Qed.

Lemma table_other (c c' : collection) (t : list json) (db : Relational.database) :
  c <> c' -> Relational.table c' (Relational.set_table c t db) =
             Relational.table c' db.
Proof. destruct c, c'; intros Hne; congruence || reflexivity. Qed.

(** X13: the two deployments agree on listing, creation and deletion.  When
    the tables hold the records of the arrays in the same order and the
    persistence call succeeds, [GET] and [POST] give the same answer in both
    and leave the stores in agreement; so does [DELETE], provided every
    record of the collection has a string identifier and at most one record
    carries the identifier of the path. *)
Theorem deployments_agree (jsonb_out : json -> string) (a : Router.arrival)
    (st : FlatFile.state) (db : Relational.database) :
  (forall c, Relational.table c db = JObj <$> FlatFile.rows c st) ->
  Router.fault a = None ->
  (forall c id req_body, Router.asked a <> Router.Put c id req_body) ->
  (forall c id, Router.asked a = Router.Delete c id ->
     (forall r, r ∈ FlatFile.rows c st ->
        exists s, r !! id_field c = Some (JStr s)) /\
     (forall j k x y,
        FlatFile.rows c st !! j = Some x -> FlatFile.rows c st !! k = Some y ->
        field_is (id_field c) id x = true ->
        field_is (id_field c) id y = true -> j = k)) ->
  (Router.dispatch a st).2 = (Router.dispatch_sql jsonb_out a db).2 /\
  forall c,
    Relational.table c (Router.dispatch_sql jsonb_out a db).1.1 =
      JObj <$> FlatFile.rows c (Router.dispatch a st).1.
Proof.
  intros Hagree Hok Hnoput Hdelete.
  destruct a as [w flt [c | c req_body | c id req_body | c id]];
    simpl in Hok; subst flt; unfold Router.dispatch, Router.dispatch_sql;
    cbn [Router.asked Router.fault Router.at_world].
  - (* GET *)
    unfold Relational.get_route, Relational.pool_query, Relational.execute,
      FlatFile.get_route. cbn [fst snd]. rewrite Hagree.
    split; [reflexivity | exact Hagree].
  - (* POST *)
    unfold Relational.post_route, Relational.pool_query, Relational.execute,
      FlatFile.post_route. cbn [fst snd].
    split; [reflexivity|].
    intros c'. rewrite rows_save_then.
    destruct (collection_cases c c') as [<- | Hne].
    + rewrite table_set_table, rows_set_rows, Hagree, fmap_app. reflexivity.
    + rewrite rows_other, table_other by exact Hne. apply Hagree.
  - (* PUT is excluded *)
    exfalso. exact (Hnoput c id req_body eq_refl).
  - (* DELETE *)
    destruct (Hdelete c id eq_refl) as [Hstring Huniq].
    pose (q := field_is (id_field c) id).
    assert (Hhit : List.filter (Relational.where_id jsonb_out (id_field c) id)
                     (Relational.table c db) =
                   JObj <$> List.filter q (FlatFile.rows c st)).
    { rewrite Hagree. apply filter_fmap_ext.
      intros r Hr. apply where_id_field_is, Hstring, Hr. }
    assert (Hmiss : List.filter
                      (fun doc => negb (Relational.where_id jsonb_out
                                          (id_field c) id doc))
                      (Relational.table c db) =
                    JObj <$> List.filter (fun r => negb (q r))
                               (FlatFile.rows c st)).
    { rewrite Hagree. apply filter_fmap_ext.
      intros r Hr. f_equal. apply where_id_field_is, Hstring, Hr. }
    unfold Relational.delete_route, Relational.pool_query, Relational.execute,
      FlatFile.delete_route.
    rewrite Hhit, Hmiss. fold q.
    destruct (findIndex q (FlatFile.rows c st)) as [index|] eqn:Hfind.
    + destruct (filter_unique_splice q _ _ Hfind Huniq) as [Hsplice [x Hx]].
      rewrite Hx, Hsplice. cbn [fst snd fmap list_fmap].
      split; [reflexivity|].
      intros c'. rewrite rows_save_then.
      destruct (collection_cases c c') as [<- | Hne].
      * rewrite table_set_table, rows_set_rows. reflexivity.
      * rewrite rows_other, table_other by exact Hne. apply Hagree.
    + pose proof (findIndex_None _ _ Hfind) as Hnone.
      rewrite (filter_none _ _ Hnone), (filter_all _ _ Hnone).
      cbn [fst snd fmap list_fmap].
      split; [reflexivity|].
      intros c'. rewrite <- Hagree, set_table_same. apply Hagree.
Qed.

Lemma deployments_agree_witness :
  (Router.dispatch
     (Router.Arrival sample_world None (Router.Delete Products "p1"))
     one_product).2 =
  (Router.dispatch_sql no_printer
     (Router.Arrival sample_world None (Router.Delete Products "p1"))
     one_row).2 /\
  forall c,
    Relational.table c
      (Router.dispatch_sql no_printer
         (Router.Arrival sample_world None (Router.Delete Products "p1"))
         one_row).1.1 =
    JObj <$> FlatFile.rows c
      (Router.dispatch
         (Router.Arrival sample_world None (Router.Delete Products "p1"))
         one_product).1.
Proof.
  apply (deployments_agree no_printer
           (Router.Arrival sample_world None (Router.Delete Products "p1"))
           one_product one_row).
  - intros []; reflexivity.
  - reflexivity.
  - intros c id req_body. discriminate.
  - intros c id Heq. injection Heq as <- <-. split.
    + intros r Hr.
      repeat (apply elem_of_cons in Hr as [-> | Hr];
              [eexists; vm_compute; reflexivity|]).
      inversion Hr.
    + intros [|[|j]] [|[|k]] x y Hj Hk Hx Hy; simpl in Hj, Hk;
        try reflexivity; try discriminate;
        try (injection Hj as <-; vm_compute in Hx; discriminate);
        try (injection Hk as <-; vm_compute in Hy; discriminate).
Defined.

(** ** The identifier field is never lost *)

Section IdentifierField.

Import FlatFile Router.

(** One request keeps a value under the identifier field of every stored
    record. *)
Lemma identified_dispatch (a : arrival) (st : state) :
  (forall c r, r ∈ rows c st -> is_Some (r !! id_field c)) ->
  forall c r, r ∈ rows c (dispatch a st).1 -> is_Some (r !! id_field c).
Proof.
  intros Hst c r Hr. unfold dispatch in Hr.
  destruct (asked a) as [c0 | c0 req_body | c0 id req_body | c0 id].
  - exact (Hst c r Hr).
  - unfold post_route in Hr. rewrite rows_save_then in Hr.
    destruct (collection_cases c0 c) as [<- | Hne].
    + rewrite rows_set_rows in Hr. apply elem_of_app in Hr as [Hr | Hr].
      * exact (Hst c0 r Hr).
      * apply list_elem_of_singleton in Hr as ->.
        rewrite lookup_insert_eq. eauto.
    + rewrite rows_other in Hr by exact Hne. exact (Hst c r Hr).
  - destruct (findIndex (field_is (id_field c0) id) (rows c0 st))
      as [index|] eqn:Hfind.
    + destruct (findIndex_Some _ _ _ Hfind) as (existing & Hex & _ & _).
      rewrite (put_route_found _ _ _ _ _ _ _ Hfind Hex), rows_save_then in Hr.
      destruct (collection_cases c0 c) as [<- | Hne].
      * rewrite rows_set_rows in Hr.
        apply list_elem_of_lookup in Hr as [j Hj].
        apply list_lookup_insert_Some in Hj as [(_ & <- & _) | (_ & Hj)].
        -- unfold spread. apply lookup_union_is_Some. right.
           apply (Hst c0 existing). apply list_elem_of_lookup. eauto.
        -- apply (Hst c0 r). apply list_elem_of_lookup. eauto.
      * rewrite rows_other in Hr by exact Hne. exact (Hst c r Hr).
    + unfold put_route in Hr. rewrite Hfind in Hr. exact (Hst c r Hr).
  - destruct (findIndex (field_is (id_field c0) id) (rows c0 st))
      as [index|] eqn:Hfind.
    + rewrite (delete_route_found _ _ _ _ _ Hfind), rows_save_then in Hr.
      destruct (collection_cases c0 c) as [<- | Hne].
      * rewrite rows_set_rows in Hr.
        apply splice_elem_of in Hr as (j & _ & Hj).
        apply (Hst c0 r). apply list_elem_of_lookup. eauto.
      * rewrite rows_other in Hr by exact Hne. exact (Hst c r Hr).
    + unfold delete_route in Hr. rewrite Hfind in Hr. exact (Hst c r Hr).
Qed.

End IdentifierField.

(** X14: in the flat-file deployment, when every stored record has a value
    under the identifier field of its collection, this is still so after any
    sequence of requests, whether their writes fail or not: a creation sets
    the field, an update keeps it (possibly with another value), and no route
    removes a field. *)
Theorem serve_keeps_identifier_field (arrivals : list Router.arrival)
    (st : FlatFile.state) :
  (forall c r, r ∈ FlatFile.rows c st -> is_Some (r !! id_field c)) ->
  forall c r, r ∈ FlatFile.rows c (Router.serve arrivals st) ->
    is_Some (r !! id_field c).
Proof.
  revert st. induction arrivals as [|a rest IH]; intros st Hst; simpl.
  - exact Hst.
  - apply IH. apply identified_dispatch. exact Hst.
Qed.

Lemma serve_keeps_identifier_field_witness :
  is_Some (stored_gizmo !! "ProductID").
Proof.
  apply (serve_keeps_identifier_field Router.busy_morning one_product)
    with (c := Products) (r := stored_gizmo).
  - intros [] r Hr; simpl in Hr.
    + repeat (apply elem_of_cons in Hr as [-> | Hr]; [vm_compute; eauto|]).
      inversion Hr.
    + inversion Hr.
  - vm_compute. apply list_elem_of_here.
Defined.
